(** * Study-Abroad-Platform: authentication, authorization and tenant isolation

    A shallow embedding of the checks every request to the server passes:
    - [JwtUtil]        server/src/utils/jwt.ts          (token issue / verify)
    - [AgencyModel]    server/src/models/Agency.ts      (tenant lookup)
    - [AuthMiddleware] server/src/middleware/auth.ts    (role, permission, ownership)
    - [RateLimiter]    server/src/middleware/rateLimiter.ts
    - [Authenticate], [ErrorHandler], [RateLimiterKeys], [SubdomainRules]:
      the rest of the middlewares and the rules for subdomains
    - [NotificationSlice], [ThemeSlice], [AuthSlice]: the client's store

    JavaScript objects are finite maps from property names to values,
    exceptions are an explicit [Throw] result, and the clock is an explicit
    argument (seconds for tokens, milliseconds for rate windows).  What
    mongoose does to a query is part of the embedding: the setters of a
    schema path run on the filter, and an id is cast to an ObjectId. *)

From Stdlib Require Import ZArith Lia Ascii String.
From stdpp Require Import base option strings list gmap.

Local Open Scope string_scope.
Local Open Scope Z_scope.

(** ** JavaScript values and exceptions *)

(** The JSON values that occur in the token payloads of this program:
    strings, integers and arrays of strings. *)
Inductive json : Type :=
  | JStr (s : string)
  | JNum (n : Z)
  | JArr (l : list string).

#[global] Instance json_eq_dec : EqDecision json.
Proof. solve_decision. Defined.

(** A JavaScript object; a property that is [undefined] is an absent key. *)
Abbreviation object := (gmap string json).

(** A computation that returns or throws. *)
Inductive result (E A : Type) : Type :=
  | Throw (e : E)
  | Return (a : A).
Arguments Throw {E A} e.
Arguments Return {E A} a.

Definition is_Return {E A} (r : result E A) : bool :=
  match r with Return _ => true | Throw _ => false end.

(** JavaScript truthiness of a possibly undefined value. *)
Definition truthy (v : option json) : bool :=
  match v with
  | None => false
  | Some (JStr s) => negb (String.eqb s "")
  | Some (JNum n) => negb (n =? 0)
  | Some (JArr _) => true
  end.

(** [typeof v === 'number'] *)
Definition is_number (v : json) : bool :=
  match v with JNum _ => true | _ => false end.

(** ** JavaScript strings

    A character of a string of this embedding is a code unit below 256,
    that is, a character of Latin-1. *)

(** The white space [String.prototype.trim] removes: TAB, LF, VT, FF, CR,
    SPACE and NBSP. *)
Definition is_space (c : ascii) : bool :=
  let n := N_of_ascii c in
  ((9 <=? n) && (n <=? 13) || (n =? 32) || (n =? 160))%N.

(** The lower-case form of a character: A-Z and the capital letters
    U+00C0 to U+00DE (the multiplication sign U+00D7 is no letter) move
    up by 32. *)
Definition lower (c : ascii) : ascii :=
  let n := N_of_ascii c in
  if ((65 <=? n) && (n <=? 90)
      || (192 <=? n) && (n <=? 222) && negb (n =? 215))%N
  then ascii_of_N (n + 32) else c.

(** [String.prototype.toLowerCase] *)
Fixpoint toLowerCase (s : string) : string :=
  match s with
  | EmptyString => EmptyString
  | String c rest => String (lower c) (toLowerCase rest)
  end.

(** [String.prototype.trimStart] *)
Fixpoint trimStart (s : string) : string :=
  match s with
  | EmptyString => EmptyString
  | String c rest => if is_space c then trimStart rest else s
  end.

(** [String.prototype.trimEnd] *)
Fixpoint trimEnd (s : string) : string :=
  match s with
  | EmptyString => EmptyString
  | String c rest =>
      match trimEnd rest with
      | EmptyString => if is_space c then EmptyString else String c EmptyString
      | rest' => String c rest'
      end
  end.

(** [String.prototype.trim] *)
Definition trim (s : string) : string := trimEnd (trimStart s).

(** ** Mongoose: casting a value to an ObjectId

    [findById] casts the id it is given to an ObjectId before it queries:
    a value that does not cast raises a CastError, and one that does is
    compared in the form in which documents store their [_id] (so that
    the case of a hex digit makes no difference).  Which values cast
    depends on the versions of mongoose and bson; the cast is therefore
    an argument of the functions below, [None] being the CastError. *)
Module Mongoose.

Inductive CastError : Type := MkCastError.

Definition ObjectIdCast : Type := json -> option string.

(** [Model.findById(id)] on a collection whose documents have the id
    [id_of]: an undefined id finds nothing, without a cast. *)
Definition findById {Doc : Type} (id_of : Doc -> string) (cast : ObjectIdCast)
    (docs : list Doc) (id : option json) : result CastError (option Doc) :=
  match id with
  | None => Return None
  | Some v =>
    match cast v with
    | None => Throw MkCastError
    | Some oid => Return (List.find (fun d => String.eqb (id_of d) oid) docs)
    end
  end.

End Mongoose.

(** ** The jsonwebtoken dependency

    [jwt.sign] and [jwt.verify] belong to the npm package jsonwebtoken,
    which the repository imports.  They are modelled after the package's
    sign.js and verify.js: the order of the checks of [verify] is the
    package's (shape, decoding, signature, nbf, exp, audience, issuer) and
    its three error classes are kept apart.  The HMAC is symbolic: a signature
    records the key and the payload it was computed over, and it verifies
    exactly when both agree with the verifier's. *)
Module Jwt.

Inductive signature : Type :=
  | Unsigned
  | HS256 (key : string) (signed : object).

(** A token string: not of the form header.payload.signature; of that
    form with a header part that does not decode; of that form with a
    JWT header and a payload part that is not JSON; or a decodable
    payload together with its signature part. *)
Inductive token : Type :=
  | Malformed (raw : string)
  | BadHeader (raw : string)
  | BadPayload (raw : string)
  | Compact (payload : object) (sig : signature).

(** What the package throws.  [TokenExpiredError] and [NotBeforeError]
    are subclasses of [JsonWebTokenError]; [PlainError] is a bare [Error]
    (thrown by [sign] on bad arguments); [SyntaxError] is the exception of
    [JSON.parse], which decoding lets through. *)
Inductive error : Type :=
  | JsonWebTokenError (message : string)
  | TokenExpiredError (expiredAt : Z)
  | NotBeforeError (date : Z)
  | PlainError (message : string)
  | SyntaxError (message : string).

(** [e instanceof jwt.TokenExpiredError] *)
Definition instanceof_TokenExpiredError (e : error) : bool :=
  match e with TokenExpiredError _ => true | _ => false end.

(** [e instanceof jwt.JsonWebTokenError] *)
Definition instanceof_JsonWebTokenError (e : error) : bool :=
  match e with
  | JsonWebTokenError _ | TokenExpiredError _ | NotBeforeError _ => true
  | PlainError _ | SyntaxError _ => false
  end.

(** The options this program passes to [sign]; [expiresIn] is the
    timespan in seconds ('7d' is 604800). *)
Record SignOptions : Type := {
  expiresIn : Z;
  issuer : string;
  audience : string
}.

Record VerifyOptions : Type := {
  v_issuer : string;
  v_audience : string
}.

(** validatePayload of sign.js: the registered claims iat, exp and nbf
    must be numbers when present. *)
Definition validatePayload (payload : object) : bool :=
  forallb (fun k => match payload !! k with
                    | Some v => is_number v
                    | None => true
                    end) ["iat"; "exp"; "nbf"].

(** [payload.iat || Math.floor(Date.now() / 1000)] *)
Definition timestamp (payload : object) (now : Z) : Z :=
  match payload !! "iat" with
  | Some (JNum n) => if n =? 0 then now else n
  | _ => now
  end.

(** One entry of options_to_payload: the option becomes a claim unless
    the payload already has that claim. *)
Definition option_to_claim (claim : string) (value : string)
    (payload : object) : result error object :=
  match payload !! claim with
  | Some _ => Throw (PlainError ("The payload already has the property " +:+ claim))
  | None => Return (<[claim := JStr value]> payload)
  end.

Definition sign (payload : object) (secretOrPrivateKey : string)
    (options : SignOptions) (now : Z) : result error token :=
  if String.eqb secretOrPrivateKey "" then
    Throw (PlainError "secretOrPrivateKey must have a value")
  else if negb (validatePayload payload) then
    Throw (PlainError "invalid registered claim in payload")
  else if bool_decide (is_Some (payload !! "exp")) then
    Throw (PlainError "Bad options.expiresIn option the payload already has an exp property.")
  else
    let ts := timestamp payload now in
    let payload := <["iat" := JNum ts]> payload in
    let payload := <["exp" := JNum (ts + expiresIn options)]> payload in
    match option_to_claim "aud" (audience options) payload with
    | Throw e => Throw e
    | Return payload =>
      match option_to_claim "iss" (issuer options) payload with
      | Throw e => Throw e
      | Return payload =>
        Return (Compact payload (HS256 secretOrPrivateKey payload))
      end
    end.

(** jws.verify for HS256: recompute the MAC and compare. *)
Definition jws_verify (payload : object) (sig : signature)
    (secret : string) : bool :=
  match sig with
  | Unsigned => false
  | HS256 key signed =>
      String.eqb key secret && bool_decide (signed = payload)
  end.

(** The audience check of verify.js: the aud claim, or any element of
    it when it is an array, equals the expected audience. *)
Definition audience_matches (aud : option json) (expected : string) : bool :=
  match aud with
  | Some (JStr a) => String.eqb a expected
  | Some (JArr l) => existsb (String.eqb expected) l
  | _ => false
  end.

Definition verify (jwtString : token) (secretOrPublicKey : string)
    (options : VerifyOptions) (now : Z) : result error object :=
  match jwtString with
  | Malformed _ => Throw (JsonWebTokenError "jwt malformed")
  | BadHeader _ => Throw (JsonWebTokenError "invalid token")
  | BadPayload _ => Throw (SyntaxError "Unexpected token in JSON")
  | Compact payload sig =>
    match sig, String.eqb secretOrPublicKey "" with
    | Unsigned, false => Throw (JsonWebTokenError "jwt signature is required")
    | Unsigned, true =>
        Throw (JsonWebTokenError "please specify none in algorithms to verify unsigned tokens")
    | HS256 _ _, true =>
        Throw (JsonWebTokenError "secret or public key must be provided")
    | HS256 _ _, false =>
      if negb (jws_verify payload sig secretOrPublicKey) then
        Throw (JsonWebTokenError "invalid signature")
      else
        let check_nbf : option error :=
          match payload !! "nbf" with
          | None => None
          | Some (JNum nbf) =>
              if nbf >? now then Some (NotBeforeError nbf) else None
          | Some _ => Some (JsonWebTokenError "invalid nbf value")
          end in
        let check_exp : option error :=
          match payload !! "exp" with
          | None => None
          | Some (JNum exp) =>
              if now >=? exp then Some (TokenExpiredError exp) else None
          | Some _ => Some (JsonWebTokenError "invalid exp value")
          end in
        match check_nbf with
        | Some e => Throw e
        | None =>
          match check_exp with
          | Some e => Throw e
          | None =>
            if negb (audience_matches (payload !! "aud") (v_audience options)) then
              Throw (JsonWebTokenError
                       ("jwt audience invalid. expected: " +:+ v_audience options))
            else if negb (bool_decide (payload !! "iss" = Some (JStr (v_issuer options)))) then
              Throw (JsonWebTokenError
                       ("jwt issuer invalid. expected: " +:+ v_issuer options))
            else Return payload
          end
        end
    end
  end.

(** [jwt.decode]: the payload, unverified; [null] when the string is not
    a token, and the exception of [JSON.parse] when its payload is not
    JSON. *)
Definition decode (jwtString : token) : result error (option object) :=
  match jwtString with
  | Malformed _ | BadHeader _ => Return None
  | BadPayload _ => Throw (SyntaxError "Unexpected token in JSON")
  | Compact payload _ => Return (Some payload)
  end.

End Jwt.

(** ** server/src/utils/jwt.ts *)
Module JwtUtil.

(** The environment the module reads when it is loaded; lifetimes are
    the timespans in seconds. *)
Record Config : Type := {
  JWT_SECRET : string;
  JWT_EXPIRES_IN : Z;
  JWT_REFRESH_EXPIRES_IN : Z
}.

(** The defaults '7d' and '30d' with a given secret. *)
Definition default_config (secret : string) : Config :=
  {| JWT_SECRET := secret;
     JWT_EXPIRES_IN := 7 * 86400;
     JWT_REFRESH_EXPIRES_IN := 30 * 86400 |}.

(** [if (!JWT_SECRET) throw ...]: the module only loads with a secret. *)
Definition loaded (cfg : Config) : Prop := JWT_SECRET cfg ≠ "".

(** shared: interface JWTPayload *)
Record JWTPayload : Type := {
  userId : string;
  email : string;
  role : string;
  agencyId : option string;
  permissions : list string
}.

(** The JavaScript object of a [JWTPayload]. *)
Definition payload_object (p : JWTPayload) : object :=
  let o : object :=
    {[ "userId" := JStr (userId p);
       "email" := JStr (email p);
       "role" := JStr (role p);
       "permissions" := JArr (permissions p) ]} in
  match agencyId p with
  | Some a => <["agencyId" := JStr a]> o
  | None => o
  end.

(** The argument of [generateRefreshToken]:
    [Omit<JWTPayload, 'permissions'>]. *)
Record RefreshPayload : Type := {
  r_userId : string;
  r_email : string;
  r_role : string;
  r_agencyId : option string
}.

(** The [Error] objects this module throws, by message. *)
Inductive Error : Type := MkError (message : string).

Definition session_sign_options (lifetime : Z) : Jwt.SignOptions :=
  {| Jwt.expiresIn := lifetime;
     Jwt.issuer := "study-abroad-saas";
     Jwt.audience := "saas-users" |}.

Definition generateAccessToken (cfg : Config) (now : Z)
    (payload : JWTPayload) : result Error Jwt.token :=
  match Jwt.sign (<["type" := JStr "access"]> (payload_object payload))
                 (JWT_SECRET cfg)
                 (session_sign_options (JWT_EXPIRES_IN cfg)) now with
  | Return token => Return token
  | Throw _ => Throw (MkError "Failed to generate access token")
  end.

Definition generateRefreshToken (cfg : Config) (now : Z)
    (payload : RefreshPayload) : result Error Jwt.token :=
  match Jwt.sign ({[ "userId" := JStr (r_userId payload);
                     "email" := JStr (r_email payload);
                     "role" := JStr (r_role payload);
                     "type" := JStr "refresh" ]} : object)
                 (JWT_SECRET cfg)
                 (session_sign_options (JWT_REFRESH_EXPIRES_IN cfg)) now with
  | Return token => Return token
  | Throw _ => Throw (MkError "Failed to generate refresh token")
  end.

Record TokenPair : Type := {
  accessToken : Jwt.token;
  refreshToken : Jwt.token
}.

(** [generateTokens], with the two readings of the clock that its two
    calls of [jwt.sign] make: [now] for the access token and, after it,
    [later] for the refresh token. *)
Definition generateTokensAt (cfg : Config) (now later : Z)
    (payload : JWTPayload) : result Error TokenPair :=
  match generateAccessToken cfg now payload with
  | Throw e => Throw e
  | Return access =>
    match generateRefreshToken cfg later
            {| r_userId := userId payload;
               r_email := email payload;
               r_role := role payload;
               r_agencyId := agencyId payload |} with
    | Throw e => Throw e
    | Return refresh =>
        Return {| accessToken := access; refreshToken := refresh |}
    end
  end.

(** [generateTokens] when both readings fall into the same second. *)
Definition generateTokens (cfg : Config) (now : Z)
    (payload : JWTPayload) : result Error TokenPair :=
  generateTokensAt cfg now now payload.

Definition verifyToken (cfg : Config) (now : Z)
    (token : Jwt.token) : result Error object :=
  match Jwt.verify token (JWT_SECRET cfg)
          {| Jwt.v_issuer := "study-abroad-saas";
             Jwt.v_audience := "saas-users" |} now with
  | Return decoded => Return decoded
  | Throw error =>
      if Jwt.instanceof_TokenExpiredError error then
        Throw (MkError "Token expired")
      else if Jwt.instanceof_JsonWebTokenError error then
        Throw (MkError "Invalid token")
      else Throw (MkError "Token verification failed")
  end.

(** The [catch] logs and returns [null]. *)
Definition decodeToken (token : Jwt.token) : option object :=
  match Jwt.decode token with
  | Return decoded => decoded
  | Throw _ => None
  end.

(** JavaScript [String.prototype.split] with a one-character separator. *)
Fixpoint split (sep : ascii) (s : string) : list string :=
  match s with
  | EmptyString => [EmptyString]
  | String c rest =>
      if Ascii.eqb c sep then EmptyString :: split sep rest
      else match split sep rest with
           | part :: parts => String c part :: parts
           | [] => [String c EmptyString]
           end
  end.

(** [null] is [None]. *)
Definition extractTokenFromHeader (authHeader : option string) : option string :=
  match authHeader with
  | None => None
  | Some authHeader =>
    if String.eqb authHeader "" then None
    else
      let parts := split " " authHeader in
      if negb (length parts =? 2)%nat
         || negb (bool_decide (parts !! 0%nat = Some "Bearer"))
      then None
      else parts !! 1%nat
  end.

Definition generatePasswordResetToken (cfg : Config) (now : Z)
    (userId email : string) : result Error Jwt.token :=
  match Jwt.sign ({[ "userId" := JStr userId;
                     "email" := JStr email;
                     "type" := JStr "password_reset" ]} : object)
                 (JWT_SECRET cfg)
                 {| Jwt.expiresIn := 3600;
                    Jwt.issuer := "study-abroad-saas";
                    Jwt.audience := "password-reset" |} now with
  | Return token => Return token
  | Throw _ => Throw (MkError "Failed to generate password reset token")
  end.

(** The result object [{ userId, email }] of [verifyPasswordResetToken]. *)
Record ResetIdentity : Type := {
  reset_userId : option json;
  reset_email : option json
}.

(** The [throw new Error('Invalid token type')] sits inside the [try],
    so the [catch] turns it into the last, generic message. *)
Definition verifyPasswordResetToken (cfg : Config) (now : Z)
    (token : Jwt.token) : result Error ResetIdentity :=
  match Jwt.verify token (JWT_SECRET cfg)
          {| Jwt.v_issuer := "study-abroad-saas";
             Jwt.v_audience := "password-reset" |} now with
  | Return decoded =>
      if negb (bool_decide (decoded !! "type" = Some (JStr "password_reset")))
      then Throw (MkError "Password reset token verification failed")
      else Return {| reset_userId := decoded !! "userId";
                     reset_email := decoded !! "email" |}
  | Throw error =>
      if Jwt.instanceof_TokenExpiredError error then
        Throw (MkError "Password reset token expired")
      else if Jwt.instanceof_JsonWebTokenError error then
        Throw (MkError "Invalid password reset token")
      else Throw (MkError "Password reset token verification failed")
  end.

(** A JavaScript [Date]: a time value in milliseconds, or an invalid date. *)
Inductive Date : Type :=
  | DateAt (ms : Z)
  | InvalidDate.

(** [new Date(ms)]: a time value beyond 8.64e15 ms gives an invalid date. *)
Definition new_Date (ms : Z) : Date :=
  if Z.abs ms <=? 8640000000000000 then DateAt ms else InvalidDate.

(** The implicit conversions JavaScript applies when the exp claim of a
    decoded token is not a number.  They are not modelled: the functions
    below take them as an argument and use them for such claims only. *)
Record Coercions : Type := {
  less_than : json -> Z -> bool;        (* [v < n] *)
  date_of_seconds : json -> Date        (* [new Date(v * 1000)] *)
}.

(** [currentTime] is [Math.floor(Date.now() / 1000)]. *)
Definition isTokenExpired (js : Coercions) (currentTime : Z)
    (token : Jwt.token) : bool :=
  match decodeToken token with
  | None => true
  | Some decoded =>
    if negb (truthy (decoded !! "exp")) then true
    else match decoded !! "exp" with
         | None => true
         | Some (JNum exp) => exp <? currentTime
         | Some v => less_than js v currentTime
         end
  end.

(** [null] is [None]. *)
Definition getTokenExpiration (js : Coercions) (token : Jwt.token)
    : option Date :=
  match decodeToken token with
  | None => None
  | Some decoded =>
    if negb (truthy (decoded !! "exp")) then None
    else match decoded !! "exp" with
         | None => None
         | Some (JNum exp) => Some (new_Date (exp * 1000))
         | Some v => Some (date_of_seconds js v)
         end
  end.

End JwtUtil.

(** ** server/src/middleware/errorMiddleware.ts *)
Module ErrorMiddleware.

(** class CustomError: the message and the HTTP status code. *)
Record CustomError : Type := {
  message : string;
  statusCode : Z
}.

Definition unauthorizedError (message : string) : CustomError :=
  {| message := message; statusCode := 401 |}.

Definition forbiddenError (message : string) : CustomError :=
  {| message := message; statusCode := 403 |}.

End ErrorMiddleware.

(** ** server/src/models/Agency.ts *)
Module AgencyModel.

(** shared: AGENCY_STATUS *)
Inductive AgencyStatus : Type := ACTIVE | INACTIVE | SUSPENDED.

#[global] Instance AgencyStatus_eq_dec : EqDecision AgencyStatus.
Proof. solve_decision. Defined.

(** The fields of an agency document that the middlewares read. *)
Record IAgency : Type := {
  _id : string;
  clientId : string;
  name : string;
  subdomain : string;
  status : AgencyStatus
}.

(** The agencies collection, in storage order. *)
Definition collection : Type := list IAgency.

(** Mongoose [findOne]: the first document that matches, or [null]. *)
Definition findOne (filter : IAgency -> bool) (agencies : collection)
    : option IAgency :=
  List.find filter agencies.

(** [agencySchema.methods.isActive] *)
Definition isActive (agency : IAgency) : bool :=
  bool_decide (status agency = ACTIVE).

(** The setters of the schema path subdomain ([lowercase: true] and
    [trim: true]).  Mongoose runs them on the value of a document and on
    the value of the path in the filter of a query. *)
Definition subdomain_setters (v : string) : string :=
  toLowerCase (trim v).

(** [agencySchema.statics.findBySubdomain]:
    [this.findOne({ subdomain, status: AGENCY_STATUS.ACTIVE })], the
    filter being cast by the schema. *)
Definition findBySubdomain (agencies : collection) (sub : string)
    : option IAgency :=
  findOne (fun a => String.eqb (subdomain a) (subdomain_setters sub)
                    && bool_decide (status a = ACTIVE)) agencies.

(** [Agency.findById] *)
Definition findById (cast : Mongoose.ObjectIdCast) (agencies : collection)
    (id : option json) : result Mongoose.CastError (option IAgency) :=
  Mongoose.findById _id cast agencies id.

End AgencyModel.

(** ** server/src/middleware/auth.ts *)
Module AuthMiddleware.
Import ErrorMiddleware AgencyModel.

(** shared: USER_ROLES *)
Definition SUPER_ADMIN : string := "super_admin".
Definition CLIENT : string := "client".
Definition AGENCY_ADMIN : string := "admin".
Definition AGENCY_EDITOR : string := "editor".
Definition AGENCY_VIEWER : string := "viewer".

(** shared: PERMISSIONS.MANAGE_STUDENTS *)
Definition MANAGE_STUDENTS : string := "manage_students".

(** The parts of an Express request the middlewares read and write:
    [req.user] is the decoded token payload. *)
Record Request : Type := {
  user : option object;
  agency : option IAgency;
  params : gmap string string;
  route_path : string
}.

(** What a middleware hands to Express: [next()] with the request as it
    now is, [next(error)] with a [CustomError], [next(error)] with a
    runtime TypeError, or [next(error)] with the CastError of a query. *)
Inductive outcome : Type :=
  | Next (req : Request)
  | NextError (error : CustomError)
  | NextTypeError
  | NextCastError.

(** [String.prototype.includes] *)
Fixpoint str_includes (search s : string) : bool :=
  String.prefix search s
  || match s with
     | EmptyString => false
     | String _ rest => str_includes search rest
     end.

(** [Array.prototype.join] *)
Fixpoint join (sep : string) (l : list string) : string :=
  match l with
  | [] => ""
  | [x] => x
  | x :: rest => x +:+ sep +:+ join sep rest
  end.

(** [v.includes(x)] on a defined value [v]: array membership, substring
    for a string, and a TypeError ([None]) for a number. *)
Definition js_includes (v : json) (x : string) : option bool :=
  match v with
  | JArr l => Some (bool_decide (x ∈ l))
  | JStr s => Some (str_includes x s)
  | JNum _ => None
  end.

Definition requirePermission (permission : string) (req : Request) : outcome :=
  match user req with
  | None => NextError (unauthorizedError "Authentication required")
  | Some u =>
    let denied := NextError (forbiddenError ("Permission required: " +:+ permission)) in
    if negb (truthy (u !! "permissions")) then denied
    else match u !! "permissions" with
         | None => denied
         | Some perms =>
           match js_includes perms permission with
           | None => NextTypeError
           | Some true => Next req
           | Some false => denied
           end
         end
  end.

(** [req.user?.permissions?.includes(permission)]: [Some b] for the
    truthiness of the value, [None] for a TypeError. *)
Definition optional_includes (u : object) (permission : string) : option bool :=
  match u !! "permissions" with
  | None => Some false
  | Some perms => js_includes perms permission
  end.

(** [permissions.every(...)]: stops at the first falsy answer. *)
Fixpoint every_permission (u : object) (permissions : list string) : option bool :=
  match permissions with
  | [] => Some true
  | p :: rest =>
    match optional_includes u p with
    | None => None
    | Some false => Some false
    | Some true => every_permission u rest
    end
  end.

Definition requirePermissions (permissions : list string) (req : Request) : outcome :=
  match user req with
  | None => NextError (unauthorizedError "Authentication required")
  | Some u =>
    match every_permission u permissions with
    | None => NextTypeError
    | Some true => Next req
    | Some false =>
        NextError (forbiddenError ("Permissions required: " +:+ join ", " permissions))
    end
  end.

Definition requireRole (allowedRoles : list string) (req : Request) : outcome :=
  match user req with
  | None => NextError (unauthorizedError "Authentication required")
  | Some u =>
    if bool_decide (Exists (fun r => u !! "role" = Some (JStr r)) allowedRoles)
    then Next req
    else NextError (forbiddenError ("Role required: " +:+ join " or " allowedRoles))
  end.

Definition validateAgencySubdomain (agencies : collection) (req : Request) : outcome :=
  match params req !! "subdomain" with
  | None => NextError (forbiddenError "Agency subdomain is required")
  | Some sub =>
    if String.eqb sub "" then
      NextError (forbiddenError "Agency subdomain is required")
    else
      match findBySubdomain agencies sub with
      | None => NextError (forbiddenError "Agency not found or inactive")
      | Some a =>
          Next {| user := user req; agency := Some a;
                  params := params req; route_path := route_path req |}
      end
  end.




End AuthMiddleware.

(** ** server/src/middleware/rateLimiter.ts *)
Module RateLimiter.

(** The options the file passes to [rateLimit]. *)
Record Options : Type := {
  windowMs : Z;
  max : Z;
  skipSuccessfulRequests : bool
}.

(** The defaults of [rateLimiter] when the environment sets nothing. *)
Definition rateLimiter : Options :=
  {| windowMs := 900000; max := 100; skipSuccessfulRequests := false |}.

Definition authRateLimiter : Options :=
  {| windowMs := 15 * 60 * 1000; max := 5; skipSuccessfulRequests := true |}.

Definition uploadRateLimiter : Options :=
  {| windowMs := 60 * 1000; max := 10; skipSuccessfulRequests := false |}.

Definition superAdminRateLimiter : Options :=
  {| windowMs := 15 * 60 * 1000; max := 500; skipSuccessfulRequests := false |}.

(** Modelled from the spec: the counting store behind [rateLimit] is the
    express-rate-limit dependency and is not under src/.  The spec's
    RateWindow is {key, windowStart, count}, ephemeral, keyed by IP and
    reset when the window elapses. *)
Record RateWindow : Type := {
  windowStart : Z;
  count : Z
}.

Abbreviation store := (gmap string RateWindow).

(** Modelled from the spec: the window of [key] that has not elapsed at
    [now], if any. *)
Definition current (opts : Options) (now : Z) (key : string) (st : store)
    : option RateWindow :=
  match st !! key with
  | Some w => if now <? windowStart w + windowMs opts then Some w else None
  | None => None
  end.

(** Modelled from the spec: count one request of [key]; an elapsed or
    missing window is replaced by one that starts now.  Returns the
    number of hits in the window. *)
Definition increment (opts : Options) (now : Z) (key : string) (st : store)
    : store * Z :=
  match current opts now key st with
  | Some w =>
      (<[key := {| windowStart := windowStart w; count := count w + 1 |}]> st,
       count w + 1)
  | None => (<[key := {| windowStart := now; count := 1 |}]> st, 1)
  end.

(** Modelled from the spec: take one hit of [key] back (success is
    excluded from the counter). *)
Definition decrement (key : string) (st : store) : store :=
  match st !! key with
  | Some w =>
      if 0 <? count w
      then <[key := {| windowStart := windowStart w; count := count w - 1 |}]> st
      else st
  | None => st
  end.

(** One request to a limited endpoint. *)
Record Hit : Type := {
  hit_time : Z;      (* arrival, in milliseconds *)
  hit_ip : string;   (* req.ip, the key *)
  hit_status : Z     (* the status the endpoint answers with if reached *)
}.

(** What the client gets: the 429 answer of the [handler] in
    rateLimiter.ts, or the answer of the endpoint behind the limiter. *)
Inductive response : Type :=
  | TooManyRequests
  | Passed (status : Z).

(** Modelled from the spec: the middleware [rateLimit(opts)] in front of
    an endpoint.  Over the cap the request is rejected; otherwise the
    endpoint answers, and with [skipSuccessfulRequests] an answer below
    400 gives its hit back. *)
Definition limit (opts : Options) (st : store) (h : Hit) : store * response :=
  let '(st1, totalHits) := increment opts (hit_time h) (hit_ip h) st in
  if totalHits >? max opts then (st1, TooManyRequests)
  else if skipSuccessfulRequests opts && (hit_status h <? 400)
       then (decrement (hit_ip h) st1, Passed (hit_status h))
       else (st1, Passed (hit_status h)).

(** A sequence of requests, one after the other; the responses in order. *)
Fixpoint serve (opts : Options) (st : store) (hits : list Hit)
    : store * list response :=
  match hits with
  | [] => (st, [])
  | h :: rest =>
      let '(st1, r) := limit opts st h in
      let '(st2, rs) := serve opts st1 rest in
      (st2, r :: rs)
  end.

(** The hits of [key] counted in its current window. *)
Definition counted (opts : Options) (now : Z) (key : string) (st : store) : Z :=
  match current opts now key st with
  | Some w => count w
  | None => 0
  end.

End RateLimiter.

(** ** server/src/models/SuperAdmin.ts and server/src/models/Client.ts *)
Module SuperAdminModel.

(** The fields of a super admin document that the middlewares read. *)
Record ISuperAdmin : Type := {
  _id : string;
  email : string;
  name : string;
  permissions : list string
}.

Definition collection : Type := list ISuperAdmin.

(** [SuperAdmin.findById] *)
Definition findById (cast : Mongoose.ObjectIdCast) (admins : collection)
    (id : option json) : result Mongoose.CastError (option ISuperAdmin) :=
  Mongoose.findById _id cast admins id.

End SuperAdminModel.

Module ClientModel.

Inductive ClientStatus : Type := active | suspended | inactive.

#[global] Instance ClientStatus_eq_dec : EqDecision ClientStatus.
Proof. solve_decision. Defined.

Record ResourceLimits : Type := {
  storage : Z;
  bandwidth : Z;
  agencies : Z
}.

Record IClient : Type := {
  _id : string;
  name : string;
  email : string;
  company : option string;
  status : ClientStatus;
  resourceLimits : ResourceLimits
}.

Definition collection : Type := list IClient.

(** [Client.findById] *)
Definition findById (cast : Mongoose.ObjectIdCast) (clients : collection)
    (id : option json) : result Mongoose.CastError (option IClient) :=
  Mongoose.findById _id cast clients id.

End ClientModel.

(** ** server/src/middleware/auth.ts: the authenticating middlewares *)
Module Authenticate.
Import ErrorMiddleware AuthMiddleware.

(** What [authenticate] hands to Express: [next()] with the request as it
    now is, [next(error)] with a [CustomError] of the middleware,
    [next(error)] with the plain [Error] that [verifyToken] threw, or
    [next(error)] with the CastError of a query. *)
Inductive auth_outcome : Type :=
  | AuthNext (req : Request)
  | AuthError (error : CustomError)
  | AuthThrown (error : JwtUtil.Error)
  | AuthCastError.

(** What the [switch (decoded.role)] throws. *)
Inductive thrown : Type :=
  | ThrownCustom (error : CustomError)
  | ThrownCast.

(** [req.user = decoded] *)
Definition set_user (req : Request) (decoded : object) : Request :=
  {| user := Some decoded; agency := agency req;
     params := params req; route_path := route_path req |}.

(** [req.agency = agency] *)
Definition set_agency (req : Request) (a : AgencyModel.IAgency) : Request :=
  {| user := user req; agency := Some a;
     params := params req; route_path := route_path req |}.

(** The three agency roles. *)
Definition agency_roles : list string :=
  [AGENCY_ADMIN; AGENCY_EDITOR; AGENCY_VIEWER].

(** [roles.includes(role)] for a possibly undefined claim. *)
Definition role_in (role : option json) (roles : list string) : bool :=
  bool_decide (Exists (fun r => role = Some (JStr r)) roles).

Section Stores.
(** The decoding of a compact token string, done inside jsonwebtoken. *)
Variable parse : string -> Jwt.token.
(** The cast of an id to an ObjectId, done inside mongoose. *)
Variable cast : Mongoose.ObjectIdCast.
Variable cfg : JwtUtil.Config.
(** [Math.floor(Date.now() / 1000)] *)
Variable now : Z.
Variable superAdmins : SuperAdminModel.collection.
Variable clients : ClientModel.collection.
Variable agencies : AgencyModel.collection.

(** The [switch (decoded.role)]: whether a user document was found, or
    what is thrown: the CastError of the query, or the error for a client
    that is not active. *)
Definition lookup_user (decoded : object) : result thrown bool :=
  if bool_decide (decoded !! "role" = Some (JStr SUPER_ADMIN)) then
    match SuperAdminModel.findById cast superAdmins (decoded !! "userId") with
    | Throw _ => Throw ThrownCast
    | Return found => Return (bool_decide (is_Some found))
    end
  else if bool_decide (decoded !! "role" = Some (JStr CLIENT)) then
    match ClientModel.findById cast clients (decoded !! "userId") with
    | Throw _ => Throw ThrownCast
    | Return (Some c) =>
        if negb (bool_decide (ClientModel.status c = ClientModel.active))
        then Throw (ThrownCustom (unauthorizedError "Account is suspended or inactive"))
        else Return true
    | Return None => Return false
    end
  else Return false.

(** [authHeader] is [req.headers.authorization]. *)
Definition authenticate (authHeader : option string) (req : Request)
    : auth_outcome :=
  match JwtUtil.extractTokenFromHeader authHeader with
  | None => AuthError (unauthorizedError "Access token is required")
  | Some token =>
    if String.eqb token "" then
      AuthError (unauthorizedError "Access token is required")
    else
      match JwtUtil.verifyToken cfg now (parse token) with
      | Throw e => AuthThrown e
      | Return decoded =>
        match lookup_user decoded with
        | Throw (ThrownCustom e) => AuthError e
        | Throw ThrownCast => AuthCastError
        | Return found =>
          if negb found && negb (role_in (decoded !! "role") agency_roles)
          then AuthError (unauthorizedError "User not found or inactive")
          else AuthNext (set_user req decoded)
        end
      end
  end.

(** [await authenticate(req, res, () => {})]: the outcome is dropped, the
    request keeps what [authenticate] wrote to it. *)
Definition after_authenticate (authHeader : option string) (req : Request)
    : Request :=
  match authenticate authHeader req with
  | AuthNext req' => req'
  | _ => req
  end.

Definition authenticateSuperAdmin (authHeader : option string) (req : Request)
    : outcome :=
  let req := after_authenticate authHeader req in
  match user req with
  | None => NextError (forbiddenError "Super admin access required")
  | Some u =>
    if negb (bool_decide (u !! "role" = Some (JStr SUPER_ADMIN)))
    then NextError (forbiddenError "Super admin access required")
    else Next req
  end.

Definition authenticateClient (authHeader : option string) (req : Request)
    : outcome :=
  let req := after_authenticate authHeader req in
  match user req with
  | None => NextError (forbiddenError "Client access required")
  | Some u =>
    if negb (bool_decide (u !! "role" = Some (JStr CLIENT)))
    then NextError (forbiddenError "Client access required")
    else Next req
  end.

Definition authenticateAgency (authHeader : option string) (req : Request)
    : outcome :=
  let req := after_authenticate authHeader req in
  match user req with
  | None => NextError (forbiddenError "Agency access required")
  | Some u =>
    if negb (role_in (u !! "role") agency_roles) then
      NextError (forbiddenError "Agency access required")
    else if truthy (u !! "agencyId") then
      match AgencyModel.findById cast agencies (u !! "agencyId") with
      | Throw _ => NextCastError
      | Return None => NextError (forbiddenError "Agency not found or inactive")
      | Return (Some a) =>
          if negb (AgencyModel.isActive a)
          then NextError (forbiddenError "Agency not found or inactive")
          else Next (set_agency req a)
      end
    else Next req
  end.

Definition optionalAuthenticate (authHeader : option string) (req : Request)
    : outcome :=
  match JwtUtil.extractTokenFromHeader authHeader with
  | None => Next req
  | Some token =>
    if String.eqb token "" then Next req
    else match JwtUtil.verifyToken cfg now (parse token) with
         | Return decoded => Next (set_user req decoded)
         | Throw _ => Next req
         end
  end.

End Stores.

End Authenticate.

(** ** server/src/middleware/errorMiddleware.ts: the error handler *)
Module ErrorHandler.
Import ErrorMiddleware.

(** shared: ERROR_MESSAGES *)
Definition TOKEN_EXPIRED : string := "Token has expired".
Definition SERVER_ERROR : string := "Internal server error".
Definition FILE_TOO_LARGE : string := "File size exceeds limit".

(** The properties of a thrown error that [errorHandler] reads.
    [keyValue] holds the keys of [err.keyValue]; [errors] holds, for each
    entry of [err.errors], its path and its message. *)
Record AppError : Type := {
  name : string;
  message : string;
  statusCode : option Z;
  code : option json;
  keyValue : option (list string);
  errors : option (list (list string * string))
}.

(** A [CustomError] as an error object: the class keeps the name Error. *)
Definition of_CustomError (e : CustomError) : AppError :=
  {| name := "Error"; message := ErrorMiddleware.message e;
     statusCode := Some (ErrorMiddleware.statusCode e);
     code := None; keyValue := None; errors := None |}.

(** A plain [new Error(message)]. *)
Definition of_Error (e : JwtUtil.Error) : AppError :=
  let '(JwtUtil.MkError m) := e in
  {| name := "Error"; message := m; statusCode := None;
     code := None; keyValue := None; errors := None |}.

(** The CastError of mongoose. *)
Definition of_CastError (message : string) : AppError :=
  {| name := "CastError"; message := message; statusCode := None;
     code := None; keyValue := None; errors := None |}.

(** The [status] field the constructor of [CustomError] computes. *)
Definition status_of (statusCode : Z) : string :=
  if (400 <=? statusCode) && (statusCode <? 500) then "fail" else "error".

(** The response: [res.status(statusCode).json({ success: false, error })]. *)
Record Response : Type := {
  res_status : Z;
  res_error : string
}.

(** The error the handler works on: a message and a status code. *)
Definition working (err : AppError) : string * option Z :=
  (message err, statusCode err).

(** [errorHandler]: [None] stands for a TypeError thrown inside the
    handler ([Object.keys] or [Object.values] of undefined). *)
Definition errorHandler (err : AppError) : option Response :=
  let error := working err in
  let error :=
    if String.eqb (name err) "CastError"
    then ("Resource not found", Some 404) else error in
  match
    (if String.eqb (name err) "MongoServerError"
        && bool_decide (code err = Some (JNum 11000))
     then match keyValue err with
          | None => None
          | Some keys =>
              Some (default "undefined" (head keys) +:+ " already exists",
                    Some 400)
          end
     else Some error)
  with
  | None => None
  | Some error =>
    match
      (if String.eqb (name err) "ValidationError"
       then match errors err with
            | None => None
            | Some es =>
                Some ("Validation Error: " +:+ AuthMiddleware.join ", " (snd <$> es),
                      Some 400)
            end
       else Some error)
    with
    | None => None
    | Some error =>
      let error :=
        if String.eqb (name err) "JsonWebTokenError"
        then ("Invalid token", Some 401) else error in
      let error :=
        if String.eqb (name err) "TokenExpiredError"
        then (TOKEN_EXPIRED, Some 401) else error in
      let error :=
        if String.eqb (name err) "MulterError"
        then ((if bool_decide (code err = Some (JStr "LIMIT_FILE_SIZE"))
               then FILE_TOO_LARGE
               else if bool_decide (code err = Some (JStr "LIMIT_UNEXPECTED_FILE"))
               then "Too many files uploaded"
               else "File upload error"), Some 400)
        else error in
      match
        (if String.eqb (name err) "ZodError"
         then match errors err with
              | None => None
              | Some es =>
                  Some ("Validation Error: "
                        +:+ AuthMiddleware.join ", "
                              ((fun e => AuthMiddleware.join "." (fst e) +:+ ": " +:+ snd e)
                               <$> es),
                        Some 400)
              end
         else Some error)
      with
      | None => None
      | Some (msg, status) =>
          Some {| res_status := match status with
                                | Some s => if s =? 0 then 500 else s
                                | None => 500
                                end;
                  res_error := if String.eqb msg "" then SERVER_ERROR else msg |}
      end
    end
  end.

End ErrorHandler.

(** ** server/src/middleware/rateLimiter.ts: the key generators *)
Module RateLimiterKeys.

(** What the key generators read from a request. *)
Record KeyRequest : Type := {
  req_ip : string;                     (* req.ip *)
  param_subdomain : option string;     (* req.params.subdomain *)
  host : option string;                (* req.get('host') *)
  api_key : option string              (* req.headers['x-api-key'] *)
}.

(** [req.get('host')?.split('.')[0]] *)
Definition host_label (req : KeyRequest) : option string :=
  match host req with
  | None => None
  | Some h => head (JwtUtil.split "." h)
  end.

(** [req.params.subdomain || req.get('host')?.split('.')[0]] *)
Definition subdomain_of (req : KeyRequest) : option string :=
  match param_subdomain req with
  | Some s => if String.eqb s "" then host_label req else Some s
  | None => host_label req
  end.

(** The [keyGenerator] of [createAgencyRateLimiter]. *)
Definition agencyKeyGenerator (req : KeyRequest) : string :=
  match subdomain_of req with
  | Some sub =>
      if String.eqb sub "" then req_ip req
      else "agency_" +:+ sub +:+ "_" +:+ req_ip req
  | None => req_ip req
  end.

(** The [keyGenerator] of [apiKeyRateLimiter]. *)
Definition apiKeyGenerator (req : KeyRequest) : string :=
  match api_key req with
  | Some k => if String.eqb k "" then req_ip req else k
  | None => req_ip req
  end.

End RateLimiterKeys.

(** ** The subdomain rules of Agency.ts and of shared validation.ts *)
Module SubdomainRules.

Definition char_between (lo hi c : ascii) : bool :=
  (N_of_ascii lo <=? N_of_ascii c)%N && (N_of_ascii c <=? N_of_ascii hi)%N.

(** The character class [[a-z0-9-]]. *)
Definition in_class (c : ascii) : bool :=
  char_between "a" "z" c || char_between "0" "9" c || Ascii.eqb c "-".

Fixpoint all_in_class (s : string) : bool :=
  match s with
  | EmptyString => true
  | String c rest => in_class c && all_in_class rest
  end.

(** [/^[a-z0-9-]+$/.test(s)] *)
Definition regex_test (s : string) : bool :=
  negb (String.eqb s "") && all_in_class s.

(** [s.startsWith('-')] *)
Definition startsWith_hyphen (s : string) : bool :=
  match s with
  | String c _ => Ascii.eqb c "-"
  | EmptyString => false
  end.

(** [s.endsWith('-')] *)
Fixpoint endsWith_hyphen (s : string) : bool :=
  match s with
  | EmptyString => false
  | String c EmptyString => Ascii.eqb c "-"
  | String _ rest => endsWith_hyphen rest
  end.

(** Agency.ts: the [validate.validator] of the subdomain path. *)
Definition validator (subdomain : string) : bool :=
  regex_test subdomain
  && negb (startsWith_hyphen subdomain)
  && negb (endsWith_hyphen subdomain).

(** Agency.ts: all validators of the subdomain path (required, minlength
    3, maxlength 20, validate) pass on what the setters of the path make
    of the value [raw] that is given for it; that is the value stored. *)
Definition schema_accepts (raw : string) : bool :=
  let subdomain := AgencyModel.subdomain_setters raw in
  negb (String.eqb subdomain "")
  && (3 <=? String.length subdomain)%nat
  && (String.length subdomain <=? 20)%nat
  && validator subdomain.

(** validation.ts: the subdomain of [createAgencySchema]:
    [z.string().min(3).max(20).regex(...).refine(...)]. *)
Definition zod_accepts (val : string) : bool :=
  (3 <=? String.length val)%nat
  && (String.length val <=? 20)%nat
  && regex_test val
  && (negb (startsWith_hyphen val) && negb (endsWith_hyphen val)).

End SubdomainRules.

(** ** client/src/store/slices/notificationSlice.ts *)
Module NotificationSlice.

Inductive NotificationType : Type := Info | Success | Warning | Error.

(** A JavaScript number as the slice compares it: an integer, or NaN.
    With NaN on either side both [<] and [>=] are false; on all other
    numbers the two are complementary, as they are on the integers. *)
Inductive number : Type :=
  | Num (z : Z)
  | NaN.

(** [a < b] *)
Definition lt (a b : number) : bool :=
  match a, b with
  | Num x, Num y => x <? y
  | _, _ => false
  end.

(** [a >= b] *)
Definition ge (a b : number) : bool :=
  match a, b with
  | Num x, Num y => x >=? y
  | _, _ => false
  end.

(** [a - b] *)
Definition minus (a b : number) : number :=
  match a, b with
  | Num x, Num y => Num (x - y)
  | _, _ => NaN
  end.

Record Notification : Type := {
  id : string;
  type : NotificationType;
  title : string;
  message : string;
  timestamp : number;
  read : bool;
  persistent : option bool;
  actionLabel : option string;
  actionUrl : option string;
  userId : option string;
  agencyId : option string
}.

Record Settings : Type := {
  enableSound : bool;
  enableDesktop : bool;
  enableEmail : bool;
  maxNotifications : Z
}.

Record NotificationState : Type := {
  notifications : list Notification;
  unreadCount : Z;
  isLoading : bool;
  error : option string;
  settings : Settings
}.

(** [initialState]; the three flags are what [JSON.parse] makes of the
    stored settings when the module loads. *)
Definition initialState (sound desktop mail : bool) : NotificationState :=
  {| notifications := []; unreadCount := 0; isLoading := false; error := None;
     settings := {| enableSound := sound; enableDesktop := desktop;
                    enableEmail := mail; maxNotifications := 50 |} |}.

(** [notification.read = true] *)
Definition set_read (n : Notification) : Notification :=
  {| id := id n; type := type n; title := title n; message := message n;
     timestamp := timestamp n; read := true; persistent := persistent n;
     actionLabel := actionLabel n; actionUrl := actionUrl n;
     userId := userId n; agencyId := agencyId n |}.

(** The state with its list and its counter replaced. *)
Definition update (state : NotificationState) (ns : list Notification)
    (unread : Z) : NotificationState :=
  {| notifications := ns; unreadCount := unread; isLoading := isLoading state;
     error := error state; settings := settings state |}.

(** [list.filter(n => !n.read).length] *)
Definition unread_in (ns : list Notification) : Z :=
  Z.of_nat (length (List.filter (fun n => negb (read n)) ns)).

(** [array.splice(start)]: the array keeps its first elements and the
    removed rest is returned; a negative [start] counts from the end. *)
Definition splice (start : Z) (ns : list Notification)
    : list Notification * list Notification :=
  let len := Z.of_nat (length ns) in
  let actualStart := if start <? 0 then Z.max (len + start) 0
                     else Z.min start len in
  (take (Z.to_nat actualStart) ns, drop (Z.to_nat actualStart) ns).

(** The tail of both adding reducers: limit the total. *)
Definition limit_total (state : NotificationState) : NotificationState :=
  if Z.of_nat (length (notifications state)) >? maxNotifications (settings state)
  then
    let '(kept, removed) :=
      splice (maxNotifications (settings state)) (notifications state) in
    update state kept (Z.max 0 (unreadCount state - unread_in removed))
  else state.

Definition addNotification (state : NotificationState) (notification : Notification)
    : NotificationState :=
  limit_total
    (update state (notification :: notifications state)
       (if negb (read notification) then unreadCount state + 1
        else unreadCount state)).

(** The argument of [prepare]:
    [Omit<Notification, 'id' | 'timestamp' | 'read'>]. *)
Record NotificationInput : Type := {
  in_type : NotificationType;
  in_title : string;
  in_message : string;
  in_persistent : option bool;
  in_actionLabel : option string;
  in_actionUrl : option string;
  in_userId : option string;
  in_agencyId : option string
}.

(** [prepare]; [fresh] is [nanoid()] and [now] is [Date.now()]. *)
Definition prepare (fresh : string) (now : Z) (notification : NotificationInput)
    : Notification :=
  {| id := fresh; timestamp := Num now; read := false;
     type := in_type notification; title := in_title notification;
     message := in_message notification;
     persistent := in_persistent notification;
     actionLabel := in_actionLabel notification;
     actionUrl := in_actionUrl notification;
     userId := in_userId notification; agencyId := in_agencyId notification |}.

(** The first notification with the given id is marked as read. *)
Fixpoint mark_first (target : string) (ns : list Notification) : list Notification :=
  match ns with
  | [] => []
  | n :: rest =>
      if String.eqb (id n) target then set_read n :: rest
      else n :: mark_first target rest
  end.

Definition markAsRead (state : NotificationState) (payload : string)
    : NotificationState :=
  match List.find (fun n => String.eqb (id n) payload) (notifications state) with
  | Some notification =>
      if negb (read notification)
      then update state (mark_first payload (notifications state))
                  (Z.max 0 (unreadCount state - 1))
      else state
  | None => state
  end.

Definition markAllAsRead (state : NotificationState) : NotificationState :=
  update state (set_read <$> notifications state) 0.

(** [splice(index, 1)] at the first notification with the given id. *)
Fixpoint remove_first (target : string) (ns : list Notification) : list Notification :=
  match ns with
  | [] => []
  | n :: rest =>
      if String.eqb (id n) target then rest
      else n :: remove_first target rest
  end.

Definition removeNotification (state : NotificationState) (payload : string)
    : NotificationState :=
  match List.find (fun n => String.eqb (id n) payload) (notifications state) with
  | Some notification =>
      update state (remove_first payload (notifications state))
        (if negb (read notification) then Z.max 0 (unreadCount state - 1)
         else unreadCount state)
  | None => state
  end.

Definition clearNotifications (state : NotificationState) : NotificationState :=
  update state [] 0.

(** [n.persistent] as a condition. *)
Definition is_persistent (n : Notification) : bool :=
  match persistent n with
  | Some b => b
  | None => false
  end.

(** [now] is [Date.now()]. *)
Definition clearOldNotifications (now : Z) (state : NotificationState)
    (payload : number) : NotificationState :=
  let cutoffTime := minus (Num now) payload in
  let oldNotifications :=
    List.filter (fun n => lt (timestamp n) cutoffTime && negb (is_persistent n))
                (notifications state) in
  let unreadRemoved := unread_in oldNotifications in
  update state
    (List.filter (fun n => ge (timestamp n) cutoffTime || is_persistent n)
                 (notifications state))
    (Z.max 0 (unreadCount state - unreadRemoved)).

(** [Partial<NotificationState['settings']>] *)
Record SettingsPatch : Type := {
  patch_enableSound : option bool;
  patch_enableDesktop : option bool;
  patch_enableEmail : option bool;
  patch_maxNotifications : option Z
}.

(** The state part of [updateSettings]:
    [{ ...state.settings, ...action.payload }]. *)
Definition updateSettings (state : NotificationState) (payload : SettingsPatch)
    : NotificationState :=
  {| notifications := notifications state; unreadCount := unreadCount state;
     isLoading := isLoading state; error := error state;
     settings :=
       {| enableSound := default (enableSound (settings state)) (patch_enableSound payload);
          enableDesktop := default (enableDesktop (settings state)) (patch_enableDesktop payload);
          enableEmail := default (enableEmail (settings state)) (patch_enableEmail payload);
          maxNotifications :=
            default (maxNotifications (settings state)) (patch_maxNotifications payload) |} |}.

(** [JSON.stringify] of a boolean. *)
Definition stringify (b : bool) : string := if b then "true" else "false".

(** The storage part of [updateSettings]: the flags that are given are
    written to localStorage. *)
Definition updateSettings_storage (payload : SettingsPatch)
    (localStorage : gmap string string) : gmap string string :=
  let ls := match patch_enableSound payload with
            | Some b => <["notificationSound" := stringify b]> localStorage
            | None => localStorage
            end in
  let ls := match patch_enableDesktop payload with
            | Some b => <["notificationDesktop" := stringify b]> ls
            | None => ls
            end in
  match patch_enableEmail payload with
  | Some b => <["notificationEmail" := stringify b]> ls
  | None => ls
  end.

Definition setLoading (state : NotificationState) (payload : bool)
    : NotificationState :=
  {| notifications := notifications state; unreadCount := unreadCount state;
     isLoading := payload; error := error state; settings := settings state |}.

Definition setError (state : NotificationState) (payload : option string)
    : NotificationState :=
  {| notifications := notifications state; unreadCount := unreadCount state;
     isLoading := isLoading state; error := payload; settings := settings state |}.

Definition addNotifications (state : NotificationState)
    (newNotifications : list Notification) : NotificationState :=
  limit_total
    (update state (newNotifications ++ notifications state)%list
       (unreadCount state + unread_in newNotifications)).

(** The notifications [markMultipleAsRead] marks. *)
Definition to_mark (ids : list string) (n : Notification) : bool :=
  bool_decide (id n ∈ ids) && negb (read n).

Definition markMultipleAsRead (state : NotificationState) (ids : list string)
    : NotificationState :=
  let markedCount :=
    Z.of_nat (length (List.filter (to_mark ids) (notifications state))) in
  update state
    ((fun n => if to_mark ids n then set_read n else n) <$> notifications state)
    (Z.max 0 (unreadCount state - markedCount)).

(** The actions of the slice; [ClearOldNotifications] carries the time at
    which it is reduced. *)
Inductive action : Type :=
  | AddNotification (payload : Notification)
  | MarkAsRead (payload : string)
  | MarkAllAsRead
  | RemoveNotification (payload : string)
  | ClearNotifications
  | ClearOldNotifications (now : Z) (payload : number)
  | UpdateSettings (payload : SettingsPatch)
  | SetLoading (payload : bool)
  | SetError (payload : option string)
  | AddNotifications (payload : list Notification)
  | MarkMultipleAsRead (payload : list string).

(** [notificationSlice.reducer] *)
Definition reducer (state : NotificationState) (a : action) : NotificationState :=
  match a with
  | AddNotification n => addNotification state n
  | MarkAsRead i => markAsRead state i
  | MarkAllAsRead => markAllAsRead state
  | RemoveNotification i => removeNotification state i
  | ClearNotifications => clearNotifications state
  | ClearOldNotifications now age => clearOldNotifications now state age
  | UpdateSettings patch => updateSettings state patch
  | SetLoading b => setLoading state b
  | SetError e => setError state e
  | AddNotifications ns => addNotifications state ns
  | MarkMultipleAsRead ids => markMultipleAsRead state ids
  end.

(** [selectUnreadNotifications] on the slice state. *)
Definition selectUnreadNotifications (state : NotificationState)
    : list Notification :=
  List.filter (fun n => negb (read n)) (notifications state).

(** [selectNotificationById] on the slice state. *)
Definition selectNotificationById (target : string) (state : NotificationState)
    : option Notification :=
  List.find (fun n => String.eqb (id n) target) (notifications state).

End NotificationSlice.

(** ** client/src/store/slices/themeSlice.ts *)
Module ThemeSlice.

(** ['light' | 'dark'] *)
Inductive Scheme : Type := Light | Dark.

(** [type Theme = 'light' | 'dark' | 'system'] *)
Inductive Theme : Type :=
  | Fixed (scheme : Scheme)
  | System.

#[global] Instance Scheme_eq_dec : EqDecision Scheme.
Proof. solve_decision. Defined.

#[global] Instance Theme_eq_dec : EqDecision Theme.
Proof. solve_decision. Defined.

(** The string a scheme or a theme is at run time. *)
Definition scheme_string (s : Scheme) : string :=
  match s with Light => "light" | Dark => "dark" end.

Definition theme_string (t : Theme) : string :=
  match t with Fixed s => scheme_string s | System => "system" end.

(** The browser, when there is a [window]: localStorage, the class list
    of the document root and the prefers-color-scheme media query. *)
Record Window : Type := {
  localStorage : gmap string string;
  classList : gset string;
  prefersDark : bool
}.

Record ThemeState : Type := {
  theme : Theme;
  systemTheme : Scheme;
  resolvedTheme : Scheme
}.

Definition getInitialTheme (window : option Window) : Theme :=
  match window with
  | Some w =>
    match localStorage w !! "theme" with
    | Some stored =>
        if String.eqb stored "light" then Fixed Light
        else if String.eqb stored "dark" then Fixed Dark
        else System
    | None => System
    end
  | None => System
  end.

Definition getSystemTheme (window : option Window) : Scheme :=
  match window with
  | Some w => if prefersDark w then Dark else Light
  | None => Light
  end.

Definition resolveTheme (theme : Theme) (systemTheme : Scheme) : Scheme :=
  match theme with
  | System => systemTheme
  | Fixed s => s
  end.

Definition initialState (window : option Window) : ThemeState :=
  {| theme := getInitialTheme window;
     systemTheme := getSystemTheme window;
     resolvedTheme := resolveTheme (getInitialTheme window) (getSystemTheme window) |}.

(** [root.classList.remove('light', 'dark'); root.classList.add(resolved)] *)
Definition apply_class (resolved : Scheme) (w : Window) : Window :=
  {| localStorage := localStorage w;
     classList := (classList w ∖ {[ "light"; "dark" ]}) ∪ {[ scheme_string resolved ]};
     prefersDark := prefersDark w |}.

(** [localStorage.setItem('theme', value)] *)
Definition store_theme (value : Theme) (w : Window) : Window :=
  {| localStorage := <["theme" := theme_string value]> (localStorage w);
     classList := classList w;
     prefersDark := prefersDark w |}.

Definition setTheme (state : ThemeState) (window : option Window) (payload : Theme)
    : ThemeState * option Window :=
  let state := {| theme := payload; systemTheme := systemTheme state;
                  resolvedTheme := resolveTheme payload (systemTheme state) |} in
  (state, (fun w => apply_class (resolvedTheme state) (store_theme payload w)) <$> window).

Definition setSystemTheme (state : ThemeState) (window : option Window)
    (payload : Scheme) : ThemeState * option Window :=
  let state := {| theme := theme state; systemTheme := payload;
                  resolvedTheme := resolveTheme (theme state) payload |} in
  (state,
   (fun w => if bool_decide (theme state = System)
             then apply_class (resolvedTheme state) w else w) <$> window).

(** The cycle of [toggleTheme]: light, dark, system, light. *)
Definition next_theme (t : Theme) : Theme :=
  match t with
  | Fixed Light => Fixed Dark
  | Fixed Dark => System
  | System => Fixed Light
  end.

Definition toggleTheme (state : ThemeState) (window : option Window)
    : ThemeState * option Window :=
  let state := {| theme := next_theme (theme state);
                  systemTheme := systemTheme state;
                  resolvedTheme := resolveTheme (next_theme (theme state))
                                                (systemTheme state) |} in
  (state,
   (fun w => apply_class (resolvedTheme state) (store_theme (theme state) w)) <$> window).

Definition initializeTheme (state : ThemeState) (window : option Window)
    : ThemeState * option Window :=
  (state, apply_class (resolvedTheme state) <$> window).

Inductive action : Type :=
  | SetTheme (payload : Theme)
  | SetSystemTheme (payload : Scheme)
  | ToggleTheme
  | InitializeTheme.

(** [themeSlice.reducer], with its effect on the browser. *)
Definition reducer (sw : ThemeState * option Window) (a : action)
    : ThemeState * option Window :=
  match a with
  | SetTheme t => setTheme (fst sw) (snd sw) t
  | SetSystemTheme s => setSystemTheme (fst sw) (snd sw) s
  | ToggleTheme => toggleTheme (fst sw) (snd sw)
  | InitializeTheme => initializeTheme (fst sw) (snd sw)
  end.

(** [selectIsDarkMode] on the slice state. *)
Definition selectIsDarkMode (state : ThemeState) : bool :=
  bool_decide (resolvedTheme state = Dark).

End ThemeSlice.

(** ** client/src/store/slices/authSlice.ts *)
Module AuthSlice.

Record AuthState : Type := {
  user : option JwtUtil.JWTPayload;
  isAuthenticated : bool;
  accessToken : option string;
  refreshToken : option string;
  isLoading : bool;
  error : option string
}.

(** The browser's localStorage. *)
Abbreviation storage := (gmap string string).

Definition initialState (localStorage : storage) : AuthState :=
  {| user := None; isAuthenticated := false;
     accessToken := localStorage !! "accessToken";
     refreshToken := localStorage !! "refreshToken";
     isLoading := false; error := None |}.

Definition loginStart (state : AuthState) : AuthState :=
  {| user := user state; isAuthenticated := isAuthenticated state;
     accessToken := accessToken state; refreshToken := refreshToken state;
     isLoading := true; error := None |}.

(** The payload of [loginSuccess]. *)
Record LoginPayload : Type := {
  login_user : JwtUtil.JWTPayload;
  login_accessToken : string;
  login_refreshToken : string
}.

Definition loginSuccess (state : AuthState) (localStorage : storage)
    (payload : LoginPayload) : AuthState * storage :=
  ({| user := Some (login_user payload); isAuthenticated := true;
      accessToken := Some (login_accessToken payload);
      refreshToken := Some (login_refreshToken payload);
      isLoading := false; error := None |},
   <["refreshToken" := login_refreshToken payload]>
     (<["accessToken" := login_accessToken payload]> localStorage)).

Definition loginFailure (state : AuthState) (localStorage : storage)
    (payload : string) : AuthState * storage :=
  ({| user := None; isAuthenticated := false;
      accessToken := None; refreshToken := None;
      isLoading := false; error := Some payload |},
   delete "refreshToken" (delete "accessToken" localStorage)).

Definition logout (state : AuthState) (localStorage : storage)
    : AuthState * storage :=
  ({| user := None; isAuthenticated := false;
      accessToken := None; refreshToken := None;
      isLoading := false; error := None |},
   delete "refreshToken" (delete "accessToken" localStorage)).

Definition refreshTokens (state : AuthState) (localStorage : storage)
    (access refresh : string) : AuthState * storage :=
  ({| user := user state; isAuthenticated := isAuthenticated state;
      accessToken := Some access; refreshToken := Some refresh;
      isLoading := isLoading state; error := error state |},
   <["refreshToken" := refresh]> (<["accessToken" := access]> localStorage)).

(** [Partial<JWTPayload>]: a field that is given replaces the user's. *)
Record UserPatch : Type := {
  patch_userId : option string;
  patch_email : option string;
  patch_role : option string;
  patch_agencyId : option (option string);
  patch_permissions : option (list string)
}.

(** [{ ...state.user, ...action.payload }] *)
Definition merge_user (u : JwtUtil.JWTPayload) (p : UserPatch) : JwtUtil.JWTPayload :=
  {| JwtUtil.userId := default (JwtUtil.userId u) (patch_userId p);
     JwtUtil.email := default (JwtUtil.email u) (patch_email p);
     JwtUtil.role := default (JwtUtil.role u) (patch_role p);
     JwtUtil.agencyId := default (JwtUtil.agencyId u) (patch_agencyId p);
     JwtUtil.permissions := default (JwtUtil.permissions u) (patch_permissions p) |}.

Definition updateUser (state : AuthState) (payload : UserPatch) : AuthState :=
  match user state with
  | Some u =>
      {| user := Some (merge_user u payload);
         isAuthenticated := isAuthenticated state;
         accessToken := accessToken state; refreshToken := refreshToken state;
         isLoading := isLoading state; error := error state |}
  | None => state
  end.

Definition clearError (state : AuthState) : AuthState :=
  {| user := user state; isAuthenticated := isAuthenticated state;
     accessToken := accessToken state; refreshToken := refreshToken state;
     isLoading := isLoading state; error := None |}.

Definition setLoading (state : AuthState) (payload : bool) : AuthState :=
  {| user := user state; isAuthenticated := isAuthenticated state;
     accessToken := accessToken state; refreshToken := refreshToken state;
     isLoading := payload; error := error state |}.

Inductive action : Type :=
  | LoginStart
  | LoginSuccess (payload : LoginPayload)
  | LoginFailure (payload : string)
  | Logout
  | RefreshTokens (access refresh : string)
  | UpdateUser (payload : UserPatch)
  | ClearError
  | SetLoading (payload : bool).

(** [authSlice.reducer], with its effect on localStorage. *)
Definition reducer (sl : AuthState * storage) (a : action) : AuthState * storage :=
  match a with
  | LoginStart => (loginStart (fst sl), snd sl)
  | LoginSuccess p => loginSuccess (fst sl) (snd sl) p
  | LoginFailure e => loginFailure (fst sl) (snd sl) e
  | Logout => logout (fst sl) (snd sl)
  | RefreshTokens a r => refreshTokens (fst sl) (snd sl) a r
  | UpdateUser p => (updateUser (fst sl) p, snd sl)
  | ClearError => (clearError (fst sl), snd sl)
  | SetLoading b => (setLoading (fst sl) b, snd sl)
  end.

(** [selectUserPermissions]: [state.auth.user?.permissions || []] *)
Definition selectUserPermissions (state : AuthState) : list string :=
  match user state with
  | Some u => JwtUtil.permissions u
  | None => []
  end.

(** [selectIsAgencyUser] *)
Definition selectIsAgencyUser (state : AuthState) : bool :=
  match user state with
  | Some u =>
      String.eqb (JwtUtil.role u) "admin" || String.eqb (JwtUtil.role u) "editor"
      || String.eqb (JwtUtil.role u) "viewer"
  | None => false
  end.

End AuthSlice.

(** * Properties *)

Import JwtUtil ErrorMiddleware AgencyModel AuthMiddleware RateLimiter.

(** ** Vocabulary of the statements *)

(** [has_char c s]: the character [c] occurs in [s]. *)
Fixpoint has_char (c : ascii) (s : string) : bool :=
  match s with
  | EmptyString => false
  | String c' rest => Ascii.eqb c' c || has_char c rest
  end.

(** The claims a token carries once [jwt.sign] has added the registered
    ones to [payload]. *)
Definition with_registered_claims (payload : object) (options : Jwt.SignOptions)
    (now : Z) : object :=
  <["iss" := JStr (Jwt.issuer options)]>
    (<["aud" := JStr (Jwt.audience options)]>
      (<["exp" := JNum (now + Jwt.expiresIn options)]>
        (<["iat" := JNum now]> payload))).

(** The names of the registered claims [jwt.sign] adds. *)
Definition registered_claims : list string := ["iat"; "exp"; "aud"; "iss"].

(** The claims of the refresh token issued for [payload], if issuing succeeds. *)
Definition refresh_claims (cfg : Config) (now : Z) (payload : RefreshPayload)
    : option object :=
  match generateRefreshToken cfg now payload with
  | Return token => decodeToken token
  | Throw _ => None
  end.

(** Sample data. *)
Definition sample_config : Config := default_config "s3cret".

Definition sample_principal : JWTPayload :=
  {| userId := "u1"; email := "ada@agency.io"; role := "admin";
     agencyId := Some "ag1"; permissions := ["manage_students"] |}.

Definition sample_refresh_payload : RefreshPayload :=
  {| r_userId := "u1"; r_email := "ada@agency.io"; r_role := "admin";
     r_agencyId := Some "ag1" |}.

(** The principal's permissions claim is absent, or an array without [p]. *)
Definition lacks_permission (u : object) (p : string) : Prop :=
  u !! "permissions" = None
  \/ exists perms, u !! "permissions" = Some (JArr perms) /\ p ∉ perms.

(** The principal's permissions claim is an array with [p] in it. *)
Definition holds_permission (u : object) (p : string) : Prop :=
  exists perms, u !! "permissions" = Some (JArr perms) /\ p ∈ perms.

(** The window of a key after one more counted hit. *)
Definition bump (w : RateWindow) (n : Z) : RateWindow :=
  {| windowStart := windowStart w; count := count w + n |}.

(** A request from [key] inside the window that starts at [start]. *)
Definition in_window (key : string) (start : Z) (h : Hit) : Prop :=
  hit_ip h = key /\ hit_time h < start + windowMs authRateLimiter.

(** A login attempt that fails answers with an error status; one that
    succeeds answers below 400. *)
Definition failed (h : Hit) : Prop := 400 <= hit_status h.
Definition succeeded (h : Hit) : Prop := hit_status h < 400.

(** A key whose stored count, if any, is below the cap. *)
Definition below_cap (key : string) (st : store) : Prop :=
  forall w, st !! key = Some w -> 0 <= count w < 5.

(** More sample data. *)
Definition sample_agencies : collection :=
  [ {| _id := "64b7f0c2a1d3e4f5a6b7c8a1"; clientId := "64b7f0c2a1d3e4f5a6b7c8c1";
       name := "Acme Study"; subdomain := "acme"; status := SUSPENDED |};
    {| _id := "64b7f0c2a1d3e4f5a6b7c8a2"; clientId := "64b7f0c2a1d3e4f5a6b7c8c1";
       name := "Globex Abroad"; subdomain := "globex"; status := ACTIVE |};
    {| _id := "64b7f0c2a1d3e4f5a6b7c8a3"; clientId := "64b7f0c2a1d3e4f5a6b7c8c2";
       name := "Initech"; subdomain := "initech"; status := INACTIVE |} ].

Definition sample_editor : object :=
  {[ "userId" := JStr "u7"; "role" := JStr AGENCY_EDITOR;
     "agencyId" := JStr "ag1"; "permissions" := JArr ["manage_content"] ]}.

Definition sample_request (u : object) (agencyId : string) : Request :=
  {| user := Some u; agency := None;
     params := {[ "agencyId" := agencyId; "id" := "r42" ]};
     route_path := "/agencies/:agencyId/students/:id" |}.

Definition sample_viewer : object :=
  {[ "userId" := JStr "u9"; "role" := JStr AGENCY_VIEWER;
     "agencyId" := JStr "ag1"; "permissions" := JArr ["view_analytics"] ]}.

(** A login attempt from one address. *)
Definition attempt (t : Z) (code : Z) : Hit :=
  {| hit_time := t; hit_ip := "203.0.113.7"; hit_status := code |}.

(** Rewriting a lookup at a literal key through literal inserts. *)
Ltac lookup_literal :=
  repeat first
    [ rewrite lookup_insert_eq
    | rewrite lookup_insert_ne by done
    | rewrite lookup_singleton_eq
    | rewrite lookup_singleton_ne by done
    | rewrite lookup_empty ].

(** ** Vocabulary of the further properties *)

(** A hex digit. *)
Definition is_hex (c : ascii) : bool :=
  SubdomainRules.char_between "0" "9" c
  || SubdomainRules.char_between "a" "f" c
  || SubdomainRules.char_between "A" "F" c.

Fixpoint all_hex (s : string) : bool :=
  match s with
  | EmptyString => true
  | String c rest => is_hex c && all_hex rest
  end.

(** A sample cast to an ObjectId for the examples: it takes the strings
    of 24 hex digits, in either case, and nothing else. *)
Definition hex_cast : Mongoose.ObjectIdCast :=
  fun v =>
    match v with
    | JStr s => if (String.length s =? 24)%nat && all_hex s
                then Some (toLowerCase s) else None
    | _ => None
    end.

(** A stand-in for the JavaScript conversions of a non-number exp claim. *)
Definition sample_coercions : Coercions :=
  {| less_than := fun _ _ => false; date_of_seconds := fun _ => InvalidDate |}.

(** The request that carries [decoded] as its user. *)
Definition request_of (decoded : object) : Request :=
  {| user := Some decoded; agency := None; params := ∅; route_path := "/" |}.

(** A request nothing has been written to yet. *)
Definition blank_request : Request :=
  {| user := None; agency := None; params := ∅; route_path := "/" |}.

(** A token that is signed with the server's secret and carries the given
    claims. *)
Definition signed_token (cfg : Config) (claims : object) : Jwt.token :=
  Jwt.Compact claims (Jwt.HS256 (JWT_SECRET cfg) claims).

(** The Authorization header carries a token for which [verifyToken]
    returns [decoded]. *)
Definition presents (parse : string -> Jwt.token) (cfg : Config) (now : Z)
    (authHeader : option string) (decoded : object) : Prop :=
  exists token,
    extractTokenFromHeader authHeader = Some token
    /\ token ≠ ""
    /\ verifyToken cfg now (parse token) = Return decoded.

(** Sample stores. *)
Definition sample_clients : ClientModel.collection :=
  [ {| ClientModel._id := "64b7f0c2a1d3e4f5a6b7c8c1"; ClientModel.name := "Carla";
       ClientModel.email := "carla@client.io"; ClientModel.company := None;
       ClientModel.status := ClientModel.suspended;
       ClientModel.resourceLimits :=
         {| ClientModel.storage := 1000; ClientModel.bandwidth := 10000;
            ClientModel.agencies := 5 |} |} ].

Definition sample_super_admins : SuperAdminModel.collection :=
  [ {| SuperAdminModel._id := "64b7f0c2a1d3e4f5a6b7c8e1";
       SuperAdminModel.email := "root@platform.io";
       SuperAdminModel.name := "Root";
       SuperAdminModel.permissions := ["manage_clients"] |} ].

(** A decoder of token strings that knows one string only. *)
Definition sample_parse (claims : object) (s : string) : Jwt.token :=
  if String.eqb s "tok" then signed_token sample_config claims
  else Jwt.Malformed s.

(** The claims of the access token of a client with the given userId. *)
Definition client_claims (userId : string) : object :=
  with_registered_claims
    {[ "userId" := JStr userId; "email" := JStr "carla@client.io";
       "role" := JStr "client"; "permissions" := JArr []; "type" := JStr "access" ]}
    (session_sign_options 604800) 1000.

(** The id of the sample client, in upper case. *)
Definition sample_client_claims : object :=
  client_claims "64B7F0C2A1D3E4F5A6B7C8C1".

(** The claims of an agency editor's access token. *)
Definition sample_editor_claims : object :=
  with_registered_claims
    {[ "userId" := JStr "u7"; "email" := JStr "ed@agency.io";
       "role" := JStr "editor"; "agencyId" := JStr "64b7f0c2a1d3e4f5a6b7c8a1";
       "permissions" := JArr ["manage_content"]; "type" := JStr "access" ]}
    (session_sign_options 604800) 1000.

(** The tenant a rate-limit key of [createAgencyRateLimiter] is built
    for: the subdomain the key generator found, if it is not empty. *)
Definition tenant_of (req : RateLimiterKeys.KeyRequest) : option string :=
  match RateLimiterKeys.subdomain_of req with
  | Some s => if String.eqb s "" then None else Some s
  | None => None
  end.

(** Two requests to tenants from one address. *)
Definition sample_key_request (sub : string) : RateLimiterKeys.KeyRequest :=
  {| RateLimiterKeys.req_ip := "203.0.113.7";
     RateLimiterKeys.param_subdomain := Some sub;
     RateLimiterKeys.host := Some "api.example.com";
     RateLimiterKeys.api_key := None |}.

(** The claims of a super admin's access token. *)
Definition sample_root_claims : object :=
  with_registered_claims
    {[ "userId" := JStr "64b7f0c2a1d3e4f5a6b7c8e1"; "email" := JStr "root@platform.io";
       "role" := JStr "super_admin"; "permissions" := JArr ["manage_clients"];
       "type" := JStr "access" ]}
    (session_sign_options 604800) 1000.

(** The counter of the notification slice agrees with its list. *)
Definition counts_unread (state : NotificationSlice.NotificationState) : Prop :=
  NotificationSlice.unreadCount state
  = NotificationSlice.unread_in (NotificationSlice.notifications state).

(** Notifications whose timestamps are not NaN. *)
Definition all_timed (ns : list NotificationSlice.Notification) : Prop :=
  Forall (fun n => NotificationSlice.timestamp n ≠ NotificationSlice.NaN) ns.

(** An action of the notification slice whose numbers are not NaN: the
    timestamps of the notifications it adds, and the age it clears by. *)
Definition well_timed (a : NotificationSlice.action) : Prop :=
  match a with
  | NotificationSlice.AddNotification n => all_timed [n]
  | NotificationSlice.AddNotifications ns => all_timed ns
  | NotificationSlice.ClearOldNotifications _ age => age ≠ NotificationSlice.NaN
  | _ => True
  end.

(** The resolved theme of the theme slice agrees with its two inputs. *)
Definition resolved_right (state : ThemeSlice.ThemeState) : Prop :=
  ThemeSlice.resolvedTheme state
  = ThemeSlice.resolveTheme (ThemeSlice.theme state) (ThemeSlice.systemTheme state).

(** The auth slice and localStorage hold the same tokens, and the slice
    says authenticated exactly when it has a user. *)
Definition auth_in_step (sl : AuthSlice.AuthState * gmap string string) : Prop :=
  AuthSlice.accessToken (fst sl) = snd sl !! "accessToken"
  /\ AuthSlice.refreshToken (fst sl) = snd sl !! "refreshToken"
  /\ (AuthSlice.isAuthenticated (fst sl) = true <-> is_Some (AuthSlice.user (fst sl))).

(** A notification as [prepare] makes it. *)
Definition sample_notification (fresh : string) (now : Z)
    : NotificationSlice.Notification :=
  NotificationSlice.prepare fresh now
    {| NotificationSlice.in_type := NotificationSlice.Info;
       NotificationSlice.in_title := "New lead";
       NotificationSlice.in_message := "A student asked for a consultation";
       NotificationSlice.in_persistent := None;
       NotificationSlice.in_actionLabel := None;
       NotificationSlice.in_actionUrl := None;
       NotificationSlice.in_userId := None;
       NotificationSlice.in_agencyId := Some "ag1" |}.

(** The document root carries the class of the scheme [s], and not the
    class of the other scheme. *)
Definition root_shows (w : ThemeSlice.Window) (s : ThemeSlice.Scheme) : Prop :=
  ("light" ∈ ThemeSlice.classList w <-> s = ThemeSlice.Light)
  /\ ("dark" ∈ ThemeSlice.classList w <-> s = ThemeSlice.Dark).

(** ** jsonwebtoken: signing and verifying *)

Section JwtFacts.
Variables (secret : string) (now : Z).
Hypothesis secret_set : secret ≠ "".

Lemma secret_eqb_false : String.eqb secret "" = false.
Proof. by apply String.eqb_neq. Qed.

(** A payload without registered claims is always signed, and the token
    carries the payload plus iat, exp, aud and iss. *)
Lemma sign_fresh (payload : object) (options : Jwt.SignOptions) :
  Forall (fun k => payload !! k = None) ["iat"; "exp"; "nbf"; "aud"; "iss"] ->
  let claims := with_registered_claims payload options now in
  Jwt.sign payload secret options now
  = Return (Jwt.Compact claims (Jwt.HS256 secret claims)).
Proof.
  intros Hfresh claims.
  repeat (apply Forall_cons in Hfresh as [? Hfresh]).
  unfold Jwt.sign, Jwt.validatePayload, Jwt.timestamp, Jwt.option_to_claim.
  rewrite secret_eqb_false. simpl.
  repeat match goal with H : payload !! _ = None |- _ => rewrite H; clear H end.
  simpl.
  match goal with H : payload !! "aud" = None |- _ =>
    rewrite !lookup_insert_ne, H by done end.
  match goal with H : payload !! "iss" = None |- _ =>
    rewrite !lookup_insert_ne, H by done end.
  reflexivity.
Qed.

(** What [verify] answers for a token signed with the verifier's own
    secret that has no nbf claim, a numeric exp and a string aud. *)
Lemma verify_own (claims : object) (options : Jwt.VerifyOptions)
    (exp : Z) (aud : string) :
  claims !! "nbf" = None ->
  claims !! "exp" = Some (JNum exp) ->
  claims !! "aud" = Some (JStr aud) ->
  Jwt.verify (Jwt.Compact claims (Jwt.HS256 secret claims)) secret options now
  = if now >=? exp then Throw (Jwt.TokenExpiredError exp)
    else if negb (String.eqb aud (Jwt.v_audience options)) then
      Throw (Jwt.JsonWebTokenError
               ("jwt audience invalid. expected: " +:+ Jwt.v_audience options))
    else if negb (bool_decide (claims !! "iss" = Some (JStr (Jwt.v_issuer options)))) then
      Throw (Jwt.JsonWebTokenError
               ("jwt issuer invalid. expected: " +:+ Jwt.v_issuer options))
    else Return claims.
Proof.
  intros Hnbf Hexp Haud.
  unfold Jwt.verify, Jwt.jws_verify.
  rewrite secret_eqb_false, String.eqb_refl, bool_decide_eq_true_2 by done.
  simpl. rewrite Hnbf, Hexp, Haud. simpl.
  by destruct (now >=? exp).
Qed.

End JwtFacts.

(** ** Issuing tokens *)

Section Issuing.
Variable cfg : Config.
Hypothesis cfg_loaded : loaded cfg.

Lemma payload_object_unregistered (P : JWTPayload) :
  Forall (fun k => (<["type" := JStr "access"]> (payload_object P) : object) !! k = None)
         ["iat"; "exp"; "nbf"; "aud"; "iss"].
Proof.
  unfold payload_object.
  destruct (agencyId P); repeat constructor; by lookup_literal.
Qed.

(** Issuing an access token never fails, and its claims are the
    principal's fields, the type and the registered claims. *)
Lemma generateAccessToken_claims (now : Z) (P : JWTPayload) :
  let claims :=
    with_registered_claims (<["type" := JStr "access"]> (payload_object P))
      (session_sign_options (JWT_EXPIRES_IN cfg)) now in
  generateAccessToken cfg now P
  = Return (Jwt.Compact claims (Jwt.HS256 (JWT_SECRET cfg) claims)).
Proof.
  intros claims. unfold generateAccessToken.
  rewrite (sign_fresh _ _ cfg_loaded) by apply payload_object_unregistered.
  reflexivity.
Qed.

Lemma generateRefreshToken_claims (now : Z) (rp : RefreshPayload) :
  let claims :=
    with_registered_claims
      {[ "userId" := JStr (r_userId rp); "email" := JStr (r_email rp);
         "role" := JStr (r_role rp); "type" := JStr "refresh" ]}
      (session_sign_options (JWT_REFRESH_EXPIRES_IN cfg)) now in
  generateRefreshToken cfg now rp
  = Return (Jwt.Compact claims (Jwt.HS256 (JWT_SECRET cfg) claims)).
Proof.
  intros claims. unfold generateRefreshToken.
  rewrite (sign_fresh _ _ cfg_loaded); [reflexivity |].
  repeat constructor; by lookup_literal.
Qed.

Lemma generatePasswordResetToken_claims (now : Z) (uid mail : string) :
  let claims :=
    with_registered_claims
      {[ "userId" := JStr uid; "email" := JStr mail;
         "type" := JStr "password_reset" ]}
      {| Jwt.expiresIn := 3600; Jwt.issuer := "study-abroad-saas";
         Jwt.audience := "password-reset" |} now in
  generatePasswordResetToken cfg now uid mail
  = Return (Jwt.Compact claims (Jwt.HS256 (JWT_SECRET cfg) claims)).
Proof.
  intros claims. unfold generatePasswordResetToken.
  rewrite (sign_fresh _ _ cfg_loaded); [reflexivity |].
  repeat constructor; by lookup_literal.
Qed.

End Issuing.

(** ** C1: an access token verifies to the principal it was issued for *)

(** What [verifyToken] answers for a session token that was signed at
    [issued] for a payload without a not-before claim. *)
Lemma verifyToken_session (cfg : Config) (issued now lifetime : Z) (payload : object) :
  loaded cfg ->
  payload !! "nbf" = None ->
  let claims := with_registered_claims payload (session_sign_options lifetime) issued in
  verifyToken cfg now (signed_token cfg claims)
  = if now >=? issued + lifetime then Throw (MkError "Token expired")
    else Return claims.
Proof.
  intros Hcfg Hnbf claims. unfold verifyToken, signed_token.
  rewrite (verify_own _ _ Hcfg _ _ (issued + lifetime) "saas-users");
    try (unfold claims, with_registered_claims; by lookup_literal).
  destruct (now >=? issued + lifetime); [done |]. simpl.
  by rewrite bool_decide_eq_true_2
    by (unfold claims, with_registered_claims; by lookup_literal).
Qed.

Lemma access_payload_nbf (P : JWTPayload) :
  (<["type" := JStr "access"]> (payload_object P) : object) !! "nbf" = None.
Proof. unfold payload_object. destruct (agencyId P); by lookup_literal. Qed.

(** C1 as stated fails: the payload [verifyToken] returns for an access
    token differs from the principal payload on more fields than iat and
    exp: it has a type, an audience and an issuer, and the principal
    payload has none of them. *)
Lemma access_round_trip_counterexample :
  exists token decoded,
    generateAccessToken sample_config 1000 sample_principal = Return token
    /\ verifyToken sample_config 2000 token = Return decoded
    /\ decoded !! "type" = Some (JStr "access")
    /\ decoded !! "aud" = Some (JStr "saas-users")
    /\ decoded !! "iss" = Some (JStr "study-abroad-saas")
    /\ payload_object sample_principal !! "type" = None
    /\ ~ (forall k, k ∉ ["iat"; "exp"] ->
            decoded !! k = payload_object sample_principal !! k).
Proof.
  assert (Hcfg : loaded sample_config) by (unfold loaded; simpl; discriminate).
  pose (claims :=
          with_registered_claims
            (<["type" := JStr "access"]> (payload_object sample_principal))
            (session_sign_options (JWT_EXPIRES_IN sample_config)) 1000).
  assert (Htype : claims !! "type" = Some (JStr "access"))
    by (unfold claims, with_registered_claims; by lookup_literal).
  assert (Hnone : payload_object sample_principal !! "type" = None)
    by (unfold payload_object, sample_principal; cbn [agencyId]; by lookup_literal).
  exists (signed_token sample_config claims), claims.
  split; [by apply generateAccessToken_claims |].
  split.
  { pose proof (verifyToken_session sample_config 1000 2000
                  (JWT_EXPIRES_IN sample_config) _ Hcfg
                  (access_payload_nbf sample_principal)) as Hverify.
    exact Hverify. }
  split; [exact Htype |].
  split; [unfold claims, with_registered_claims; by lookup_literal |].
  split; [unfold claims, with_registered_claims; by lookup_literal |].
  split; [exact Hnone |].
  intros Hall. specialize (Hall "type"). rewrite Htype, Hnone in Hall.
  assert (Hk : "type" ∉ ["iat"; "exp"]).
  { rewrite !not_elem_of_cons. repeat split; try done. apply not_elem_of_nil. }
  by apply Hall in Hk.
Qed.

(** C1, amended.  For every principal payload [P], the access token
    issued for [P] at time [issued] exists, and verifying it against the
    session issuer and audience at any time before its expiry returns a
    payload that has [P]'s userId, email, role, agencyId and
    permissions, and that is equal to [P] on every field except the
    claims signing adds: type = access, the timing claims iat and exp,
    and the audience and issuer claims aud and iss. *)
Theorem access_token_round_trip (cfg : Config) (issued now : Z) (P : JWTPayload) :
  loaded cfg ->
  now < issued + JWT_EXPIRES_IN cfg ->
  exists token decoded,
    generateAccessToken cfg issued P = Return token
    /\ verifyToken cfg now token = Return decoded
    /\ decoded !! "userId" = Some (JStr (userId P))
    /\ decoded !! "email" = Some (JStr (email P))
    /\ decoded !! "role" = Some (JStr (role P))
    /\ decoded !! "agencyId" = JStr <$> agencyId P
    /\ decoded !! "permissions" = Some (JArr (permissions P))
    /\ forall k, k ∉ "type" :: registered_claims ->
         decoded !! k = payload_object P !! k.
Proof.
  intros Hcfg Hlive.
  eexists _, _. split; [by apply generateAccessToken_claims |].
  unfold verifyToken.
  rewrite (verify_own _ _ Hcfg _ _ (issued + JWT_EXPIRES_IN cfg) "saas-users");
    try (unfold with_registered_claims, payload_object;
         destruct (agencyId P); by lookup_literal).
  replace (now >=? issued + JWT_EXPIRES_IN cfg) with false by lia.
  simpl. rewrite bool_decide_eq_true_2
    by (unfold with_registered_claims; by lookup_literal).
  simpl. split; [reflexivity |].
  unfold with_registered_claims, payload_object.
  repeat split; try (destruct (agencyId P); by lookup_literal).
  intros k Hk. unfold registered_claims in Hk.
  rewrite !not_elem_of_cons in Hk. destruct Hk as (? & ? & ? & ? & ? & _).
  by rewrite !lookup_insert_ne by done.
Qed.

Lemma access_token_round_trip_witness :
  exists token decoded,
    generateAccessToken sample_config 1000 sample_principal = Return token
    /\ verifyToken sample_config 2000 token = Return decoded
    /\ decoded !! "userId" = Some (JStr "u1")
    /\ decoded !! "email" = Some (JStr "ada@agency.io")
    /\ decoded !! "role" = Some (JStr "admin")
    /\ decoded !! "agencyId" = Some (JStr "ag1")
    /\ decoded !! "permissions" = Some (JArr ["manage_students"])
    /\ forall k, k ∉ "type" :: registered_claims ->
         decoded !! k = payload_object sample_principal !! k.
Proof.
  apply (access_token_round_trip sample_config 1000 2000 sample_principal).
  - unfold loaded. simpl. discriminate.
  - simpl. lia.
Defined.

(** ** C3, C10: what a refresh token carries *)

Lemma refresh_claims_eq (cfg : Config) (now : Z) (rp : RefreshPayload) :
  loaded cfg ->
  refresh_claims cfg now rp
  = Some (with_registered_claims
            {[ "userId" := JStr (r_userId rp); "email" := JStr (r_email rp);
               "role" := JStr (r_role rp); "type" := JStr "refresh" ]}
            (session_sign_options (JWT_REFRESH_EXPIRES_IN cfg)) now).
Proof.
  intros Hcfg. unfold refresh_claims.
  by rewrite generateRefreshToken_claims.
Qed.

Lemma generateTokens_refresh (cfg : Config) (now : Z) (P : JWTPayload) :
  loaded cfg ->
  exists pair,
    generateTokens cfg now P = Return pair
    /\ generateAccessToken cfg now P = Return (accessToken pair)
    /\ generateRefreshToken cfg now
         {| r_userId := userId P; r_email := email P; r_role := role P;
            r_agencyId := agencyId P |} = Return (refreshToken pair).
Proof.
  intros Hcfg. unfold generateTokens, generateTokensAt.
  rewrite generateAccessToken_claims, generateRefreshToken_claims by done.
  by eexists.
Qed.

(** The pair of [generateTokensAt] is the access token of the first
    reading of the clock and the refresh token of the second. *)
Lemma generateTokensAt_pair (cfg : Config) (now later : Z) (P : JWTPayload) :
  loaded cfg ->
  exists pair,
    generateTokensAt cfg now later P = Return pair
    /\ generateAccessToken cfg now P = Return (accessToken pair)
    /\ generateRefreshToken cfg later
         {| r_userId := userId P; r_email := email P; r_role := role P;
            r_agencyId := agencyId P |} = Return (refreshToken pair).
Proof.
  intros Hcfg. unfold generateTokensAt.
  rewrite generateAccessToken_claims, generateRefreshToken_claims by done.
  by eexists.
Qed.

(** C3 as stated fails: the claim set of a refresh token is not just
    userId, email, role, type and the timing claims; the issuer and
    audience claims are in it as well. *)
Lemma refresh_claim_set_counterexample :
  exists claims,
    refresh_claims sample_config 1000 sample_refresh_payload = Some claims
    /\ claims !! "iss" = Some (JStr "study-abroad-saas")
    /\ claims !! "aud" = Some (JStr "saas-users")
    /\ dom claims ≠ ({[ "userId"; "email"; "role"; "type"; "iat"; "exp" ]} : gset string).
Proof.
  eexists. split; [by apply refresh_claims_eq |].
  unfold with_registered_claims.
  split; [by lookup_literal |]. split; [by lookup_literal |].
  intros Heq.
  assert (Hin : "iss" ∈ ({[ "userId"; "email"; "role"; "type"; "iat"; "exp" ]} : gset string)).
  { rewrite <- Heq. apply elem_of_dom. eexists. by lookup_literal. }
  set_solver.
Qed.

(** C3, amended.  For every payload, the refresh token issued by
    [generateRefreshToken], which is also the refresh half of
    [generateTokens], has exactly the claims userId, email, role,
    type = refresh, the timing claims iat and exp, and the audience and
    issuer claims aud and iss; it has no permissions claim at all. *)
Theorem refresh_token_claim_set (cfg : Config) (now : Z) :
  loaded cfg ->
  (forall rp : RefreshPayload,
     exists claims,
       refresh_claims cfg now rp = Some claims
       /\ dom claims
          = ({[ "userId"; "email"; "role"; "type"; "iat"; "exp"; "aud"; "iss" ]}
             : gset string)
       /\ claims !! "userId" = Some (JStr (r_userId rp))
       /\ claims !! "email" = Some (JStr (r_email rp))
       /\ claims !! "role" = Some (JStr (r_role rp))
       /\ claims !! "type" = Some (JStr "refresh")
       /\ claims !! "permissions" = None)
  /\ (forall P : JWTPayload,
        exists pair,
          generateTokens cfg now P = Return pair
          /\ decodeToken (refreshToken pair)
             = refresh_claims cfg now
                 {| r_userId := userId P; r_email := email P;
                    r_role := role P; r_agencyId := agencyId P |}).
Proof.
  intros Hcfg. split.
  - intros rp. eexists. split; [by apply refresh_claims_eq |].
    unfold with_registered_claims.
    split; [| repeat split; by lookup_literal].
    rewrite !dom_insert_L, dom_singleton_L. set_solver.
  - intros P. destruct (generateTokens_refresh cfg now P Hcfg) as (pair & Hp & _ & Hr).
    exists pair. split; [done |].
    unfold refresh_claims. by rewrite Hr.
Qed.

Lemma refresh_token_claim_set_witness :
  exists claims,
    refresh_claims sample_config 1000 sample_refresh_payload = Some claims
    /\ claims !! "permissions" = None.
Proof.
  destruct (refresh_token_claim_set sample_config 1000) as [Hclaims _].
  - unfold loaded. simpl. discriminate.
  - destruct (Hclaims sample_refresh_payload) as (claims & Heq & _ & _ & _ & _ & _ & Hnone).
    exists claims. by split.
Defined.

(** C10.  For every principal payload that includes an agencyId,
    [generateTokens] hands the agencyId to [generateRefreshToken], which
    does not sign it: the refresh token has no agencyId claim, neither in
    its payload nor in what [verifyToken] returns for it, while the access
    token of the same pair does carry the agencyId. *)
Theorem refresh_token_omits_agency (cfg : Config) (now : Z) (P : JWTPayload)
    (a : string) :
  loaded cfg ->
  agencyId P = Some a ->
  (forall rp : RefreshPayload,
     exists claims,
       refresh_claims cfg now rp = Some claims /\ claims !! "agencyId" = None)
  /\ exists pair access refresh,
       generateTokens cfg now P = Return pair
       /\ decodeToken (accessToken pair) = Some access
       /\ access !! "agencyId" = Some (JStr a)
       /\ decodeToken (refreshToken pair) = Some refresh
       /\ refresh !! "agencyId" = None
       /\ forall later, later < now + JWT_REFRESH_EXPIRES_IN cfg ->
            verifyToken cfg later (refreshToken pair) = Return refresh.
Proof.
  intros Hcfg Ha. split.
  - intros rp. eexists. split; [by apply refresh_claims_eq |].
    unfold with_registered_claims. by lookup_literal.
  - destruct (generateTokens_refresh cfg now P Hcfg) as (pair & Hp & Hacc & Hr).
    rewrite generateAccessToken_claims in Hacc by done.
    rewrite generateRefreshToken_claims in Hr by done.
    injection Hacc as Hacc. injection Hr as Hr.
    exists pair. eexists _, _. split; [done |].
    rewrite <- Hacc, <- Hr. simpl.
    split; [reflexivity |].
    split; [unfold with_registered_claims, payload_object; rewrite Ha;
            by lookup_literal |].
    split; [reflexivity |].
    split; [unfold with_registered_claims; by lookup_literal |].
    intros later Hlater. unfold verifyToken.
    rewrite (verify_own _ _ Hcfg _ _ (now + JWT_REFRESH_EXPIRES_IN cfg) "saas-users");
      try (unfold with_registered_claims; by lookup_literal).
    replace (later >=? now + JWT_REFRESH_EXPIRES_IN cfg) with false by lia.
    simpl. rewrite bool_decide_eq_true_2
      by (unfold with_registered_claims; by lookup_literal).
    reflexivity.
Qed.

Lemma refresh_token_omits_agency_witness :
  exists pair refresh,
    generateTokens sample_config 1000 sample_principal = Return pair
    /\ decodeToken (refreshToken pair) = Some refresh
    /\ refresh !! "agencyId" = None.
Proof.
  destruct (refresh_token_omits_agency sample_config 1000 sample_principal "ag1")
    as [_ (pair & access & refresh & Hp & _ & _ & Hr & Hnone & _)].
  - unfold loaded. simpl. discriminate.
  - reflexivity.
  - exists pair, refresh. by repeat split.
Defined.

(** ** C4, C5: how verification fails *)

(** [verifyToken] fails with one of the three messages of its [catch],
    whatever [jwt.verify] throws. *)
Lemma verifyToken_failures (cfg : Config) (now : Z) (token : Jwt.token) (e : Error) :
  verifyToken cfg now token = Throw e ->
  e ∈ [MkError "Token expired"; MkError "Invalid token";
       MkError "Token verification failed"].
Proof.
  unfold verifyToken.
  destruct (Jwt.verify _ _ _ _) as [err |]; [| discriminate].
  destruct (Jwt.instanceof_TokenExpiredError err);
    [| destruct (Jwt.instanceof_JsonWebTokenError err)];
    intros [= <-]; set_solver.
Qed.

(** The third message is that of a token whose payload is not JSON. *)
Lemma verifyToken_bad_payload (cfg : Config) (now : Z) (raw : string) :
  verifyToken cfg now (Jwt.BadPayload raw)
  = Throw (MkError "Token verification failed").
Proof. reflexivity. Qed.

(** A token whose audience claim is a string other than the expected one
    is never accepted by [jwt.verify]. *)
Lemma verify_other_audience (token : Jwt.token) (secret : string)
    (options : Jwt.VerifyOptions) (now : Z) (claims : object) (aud : string) :
  decodeToken token = Some claims ->
  claims !! "aud" = Some (JStr aud) ->
  aud ≠ Jwt.v_audience options ->
  exists e, Jwt.verify token secret options now = Throw e
            /\ Jwt.instanceof_JsonWebTokenError e = true.
Proof.
  intros Hdec Haud Hne.
  destruct token as [raw | raw | raw | payload sig]; simpl in Hdec;
    try discriminate.
  injection Hdec as ->.
  unfold Jwt.verify. rewrite Haud. simpl.
  apply String.eqb_neq in Hne. rewrite Hne. simpl.
  repeat case_match; simplify_eq; eauto.
Qed.

(** C4 as stated fails: a password-reset token presented to [verifyToken]
    is rejected with the generic message that a malformed token gets too;
    the module has no error of its own for an audience mismatch. *)
Lemma reset_token_error_counterexample :
  exists token,
    generatePasswordResetToken sample_config 1000 "u1" "ada@agency.io" = Return token
    /\ verifyToken sample_config 2000 token = Throw (MkError "Invalid token")
    /\ verifyToken sample_config 2000 (Jwt.Malformed "not-a-token")
       = Throw (MkError "Invalid token").
Proof.
  eexists. split; [| split]; vm_compute; reflexivity.
Qed.

(** C4, amended.  A password-reset token presented to [verifyToken] always
    fails, with the generic 'Invalid token' (or with 'Token expired' once
    its hour is over); symmetrically a session token presented to
    [verifyPasswordResetToken] always fails, with 'Invalid password reset
    token' (or 'Password reset token expired' once it has expired).  The
    same holds for any token whose audience claim is the other one. *)
Theorem audience_partition (cfg : Config) (issued now : Z) :
  loaded cfg ->
  (forall uid mail : string,
     exists token,
       generatePasswordResetToken cfg issued uid mail = Return token
       /\ verifyToken cfg now token
          = Throw (MkError (if now <? issued + 3600 then "Invalid token"
                            else "Token expired")))
  /\ (forall P : JWTPayload,
        exists token,
          generateAccessToken cfg issued P = Return token
          /\ verifyPasswordResetToken cfg now token
             = Throw (MkError (if now <? issued + JWT_EXPIRES_IN cfg
                               then "Invalid password reset token"
                               else "Password reset token expired")))
  /\ (forall token claims,
        decodeToken token = Some claims ->
        claims !! "aud" = Some (JStr "password-reset") ->
        verifyToken cfg now token = Throw (MkError "Invalid token")
        \/ verifyToken cfg now token = Throw (MkError "Token expired"))
  /\ (forall token claims,
        decodeToken token = Some claims ->
        claims !! "aud" = Some (JStr "saas-users") ->
        verifyPasswordResetToken cfg now token
          = Throw (MkError "Invalid password reset token")
        \/ verifyPasswordResetToken cfg now token
          = Throw (MkError "Password reset token expired")).
Proof.
  intros Hcfg. repeat split.
  - intros uid mail. eexists. split; [by apply generatePasswordResetToken_claims |].
    unfold verifyToken.
    rewrite (verify_own _ _ Hcfg _ _ (issued + 3600) "password-reset");
      try (unfold with_registered_claims; by lookup_literal).
    simpl. destruct (Z.ltb_spec now (issued + 3600)).
    + by replace (now >=? issued + 3600) with false by lia.
    + by replace (now >=? issued + 3600) with true by lia.
  - intros P. eexists. split; [by apply generateAccessToken_claims |].
    unfold verifyPasswordResetToken.
    rewrite (verify_own _ _ Hcfg _ _ (issued + JWT_EXPIRES_IN cfg) "saas-users");
      try (unfold with_registered_claims, payload_object;
           destruct (agencyId P); by lookup_literal).
    simpl. destruct (Z.ltb_spec now (issued + JWT_EXPIRES_IN cfg)).
    + by replace (now >=? issued + JWT_EXPIRES_IN cfg) with false by lia.
    + by replace (now >=? issued + JWT_EXPIRES_IN cfg) with true by lia.
  - intros token claims Hdec Haud.
    destruct (verify_other_audience token (JWT_SECRET cfg)
                {| Jwt.v_issuer := "study-abroad-saas"; Jwt.v_audience := "saas-users" |}
                now claims "password-reset" Hdec Haud) as (e & He & Hclass);
      [done |].
    unfold verifyToken. rewrite He.
    destruct e; simpl in *; auto; discriminate.
  - intros token claims Hdec Haud.
    destruct (verify_other_audience token (JWT_SECRET cfg)
                {| Jwt.v_issuer := "study-abroad-saas"; Jwt.v_audience := "password-reset" |}
                now claims "saas-users" Hdec Haud) as (e & He & Hclass);
      [done |].
    unfold verifyPasswordResetToken. rewrite He.
    destruct e; simpl in *; auto; discriminate.
Qed.

Lemma audience_partition_witness :
  (exists token,
     generatePasswordResetToken sample_config 1000 "u1" "ada@agency.io" = Return token
     /\ verifyToken sample_config 2000 token = Throw (MkError "Invalid token"))
  /\ (exists token,
        generateAccessToken sample_config 1000 sample_principal = Return token
        /\ verifyPasswordResetToken sample_config 2000 token
           = Throw (MkError "Invalid password reset token")).
Proof.
  destruct (audience_partition sample_config 1000 2000) as (Hreset & Hsession & _).
  - unfold loaded. simpl. discriminate.
  - split.
    + exact (Hreset "u1" "ada@agency.io").
    + exact (Hsession sample_principal).
Defined.




(** ** C2: the Authorization header *)

Lemma split_not_nil (sep : ascii) (s : string) : split sep s ≠ [].
Proof.
  destruct s as [| c rest]; simpl; [done |].
  destruct (Ascii.eqb c sep); [done |].
  by destruct (split sep rest).
Qed.

(** A string without the separator is its own single part. *)
Lemma split_without_sep (sep : ascii) (s : string) :
  has_char sep s = false -> split sep s = [s].
Proof.
  induction s as [| c rest IH]; simpl; [done |].
  intros [Hc Hrest]%orb_false_iff.
  by rewrite Hc, IH.
Qed.

(** The first part ends at the first separator. *)
Lemma split_at_sep (sep : ascii) (first rest : string) :
  has_char sep first = false ->
  split sep (first +:+ String sep rest) = first :: split sep rest.
Proof.
  induction first as [| c first' IH]; simpl.
  - by rewrite Ascii.eqb_refl.
  - intros [Hc Hfirst]%orb_false_iff. by rewrite Hc, IH.
Qed.

(** A single part is the whole string, and it has no separator. *)
Lemma split_one_part (sep : ascii) (s part : string) :
  split sep s = [part] -> s = part /\ has_char sep part = false.
Proof.
  revert part. induction s as [| c rest IH]; simpl; intros part Hsplit.
  - by injection Hsplit as <-.
  - destruct (Ascii.eqb c sep) eqn:Hc.
    + injection Hsplit as _ Hnil. by apply split_not_nil in Hnil.
    + destruct (split sep rest) as [| p ps] eqn:Hrest;
        injection Hsplit as <-; [by apply split_not_nil in Hrest |].
      subst ps. destruct (IH p eq_refl) as [-> Hp].
      simpl. by rewrite Hc, Hp.
Qed.

(** Two parts are the two sides of the only separator. *)
Lemma split_two_parts (sep : ascii) (s first second : string) :
  split sep s = [first; second] ->
  s = first +:+ String sep second
  /\ has_char sep first = false /\ has_char sep second = false.
Proof.
  revert first. induction s as [| c rest IH]; simpl; intros first Hsplit;
    [discriminate |].
  destruct (Ascii.eqb c sep) eqn:Hc.
  - injection Hsplit as <- Hrest. apply Ascii.eqb_eq in Hc as ->.
    by destruct (split_one_part _ _ _ Hrest) as [-> ?].
  - destruct (split sep rest) as [| p ps] eqn:Hrest; [discriminate |].
    injection Hsplit as <- ->.
    destruct (IH p eq_refl) as (-> & Hp & Hsecond).
    simpl. by rewrite Hc, Hp.
Qed.

(** The header values [extractTokenFromHeader] accepts. *)
Lemma extractTokenFromHeader_Some (authHeader : option string) (t : string) :
  extractTokenFromHeader authHeader = Some t ->
  authHeader = Some ("Bearer " +:+ t) /\ has_char " " t = false.
Proof.
  destruct authHeader as [h |]; simpl; [| discriminate].
  destruct (String.eqb h ""); [discriminate |].
  destruct (split " " h) as [| p0 [| p1 [| p2 ps]]] eqn:Hsplit; simpl;
    try discriminate.
  case_bool_decide as Hfirst; simpl; [| discriminate].
  injection Hfirst as ->. intros [= ->].
  by destruct (split_two_parts _ _ _ _ Hsplit) as (-> & _ & ?).
Qed.

(** C2.  A header of the form 'Bearer <t>' is the word Bearer, one space
    and a part [t] that has no space in it.  For every Authorization
    header value that is not of this form, the absent header included,
    [extractTokenFromHeader] returns null; for every header of this form
    it returns [t]. *)
Theorem extractTokenFromHeader_spec :
  (forall authHeader : option string,
     ~ (exists t, authHeader = Some ("Bearer " +:+ t) /\ has_char " " t = false) ->
     extractTokenFromHeader authHeader = None)
  /\ (forall t : string,
        has_char " " t = false ->
        extractTokenFromHeader (Some ("Bearer " +:+ t)) = Some t).
Proof.
  split.
  - intros authHeader Hform.
    destruct (extractTokenFromHeader authHeader) as [t |] eqn:Hext; [| done].
    destruct Hform. exists t. by apply extractTokenFromHeader_Some.
  - intros t Ht. unfold extractTokenFromHeader.
    change ("Bearer " +:+ t) with ("Bearer" +:+ String " " t).
    rewrite (split_at_sep " " "Bearer" t eq_refl), (split_without_sep _ _ Ht).
    reflexivity.
Qed.

Lemma extractTokenFromHeader_spec_witness :
  extractTokenFromHeader (Some "Bearer abc.def.ghi") = Some "abc.def.ghi"
  /\ extractTokenFromHeader (Some "Bearer abc def") = None
  /\ extractTokenFromHeader None = None.
Proof.
  destruct extractTokenFromHeader_spec as [Hnull Htoken].
  split; [| split].
  - apply (Htoken "abc.def.ghi"). reflexivity.
  - apply Hnull. intros (t & Heq & Ht).
    assert (t = "abc def") as -> by (cbv in Heq; congruence).
    vm_compute in Ht. discriminate.
  - apply Hnull. intros (t & Habs & _). discriminate.
Defined.

(** ** C6: tenant resolution *)

Lemma findOne_None (filter : IAgency -> bool) (agencies : collection) :
  (forall a, a ∈ agencies -> filter a = false) ->
  findOne filter agencies = None.
Proof.
  unfold findOne. induction agencies as [| a rest IH]; intros Hall; simpl; [done |].
  rewrite (Hall a) by left. apply IH. intros b Hb. apply Hall. by right.
Qed.

(** What [findBySubdomain] returns is an active agency stored under the
    subdomain that the setters make of the one asked for. *)
Lemma findBySubdomain_Some (agencies : collection) (sub : string) (a : IAgency) :
  findBySubdomain agencies sub = Some a ->
  a ∈ agencies /\ subdomain a = subdomain_setters sub /\ status a = ACTIVE.
Proof.
  unfold findBySubdomain, findOne. intros Hfind.
  apply find_some in Hfind as [Hin [Hsub Hact]%andb_true_iff].
  split; [by apply list_elem_of_In |].
  split; [by apply String.eqb_eq | by apply bool_decide_eq_true in Hact].
Qed.

(** C6.  The tenant record for a subdomain is the record stored under
    what the setters of the schema (trim, lower case) make of it, as
    mongoose casts the query.  For every subdomain [s] whose tenant
    record has status suspended or inactive, resolution by subdomain
    returns exactly what it returns for a subdomain [absent] that has no
    tenant record at all: the lookup gives null, and the subdomain
    middleware answers both requests with the same error. *)
Theorem suspended_resolves_as_absent (agencies : collection) (s absent : string) :
  (forall a, a ∈ agencies -> subdomain a = subdomain_setters s ->
             status a = SUSPENDED \/ status a = INACTIVE) ->
  (forall a, a ∈ agencies -> subdomain a ≠ subdomain_setters absent) ->
  findBySubdomain agencies s = None
  /\ findBySubdomain agencies s = findBySubdomain agencies absent
  /\ forall req req',
       params req !! "subdomain" = Some s ->
       params req' !! "subdomain" = Some absent ->
       s ≠ "" -> absent ≠ "" ->
       validateAgencySubdomain agencies req
       = NextError (forbiddenError "Agency not found or inactive")
       /\ validateAgencySubdomain agencies req
          = validateAgencySubdomain agencies req'.
Proof.
  intros Hsusp Habsent.
  assert (Hs : findBySubdomain agencies s = None).
  { apply findOne_None. intros a Hin.
    destruct (String.eqb_spec (subdomain a) (subdomain_setters s)) as [Heq | Hne];
      [| done].
    simpl. apply bool_decide_eq_false.
    destruct (Hsusp a Hin Heq) as [-> | ->]; discriminate. }
  assert (Ha : findBySubdomain agencies absent = None).
  { apply findOne_None. intros a Hin.
    by rewrite (proj2 (String.eqb_neq _ _) (Habsent a Hin)). }
  split; [done |]. split; [congruence |].
  intros req req' Hreq Hreq' Hne Hne'.
  unfold validateAgencySubdomain.
  rewrite Hreq, Hreq', Hs, Ha.
  by rewrite (proj2 (String.eqb_neq _ _) Hne), (proj2 (String.eqb_neq _ _) Hne').
Qed.

Lemma suspended_resolves_as_absent_witness :
  findBySubdomain sample_agencies " Acme " = None
  /\ findBySubdomain sample_agencies " Acme "
     = findBySubdomain sample_agencies "NoWhere".
Proof.
  destruct (suspended_resolves_as_absent sample_agencies " Acme " "NoWhere")
    as (Hnone & Hsame & _).
  - intros a Hin Hsub. unfold sample_agencies in Hin.
    rewrite !elem_of_cons, elem_of_nil in Hin.
    destruct Hin as [-> | [-> | [-> | []]]]; vm_compute in Hsub;
      first [by left | by right | discriminate].
  - intros a Hin. unfold sample_agencies in Hin.
    rewrite !elem_of_cons, elem_of_nil in Hin.
    destruct Hin as [-> | [-> | [-> | []]]]; vm_compute; discriminate.
  - by split.
Defined.

(** ** C7: resource ownership *)



(** ** C8: permissions *)

Lemma every_permission_lacking (u : object) (p : string) (required : list string) :
  lacks_permission u p -> p ∈ required ->
  every_permission u required = Some false.
Proof.
  intros Hlacks Hin. induction required as [| q rest IH]; [by apply elem_of_nil in Hin |].
  simpl. unfold optional_includes.
  destruct Hlacks as [Hnone | (perms & Hperms & Hnot)].
  - by rewrite Hnone.
  - rewrite Hperms. simpl. case_bool_decide as Hq; [| done].
    apply IH. apply elem_of_cons in Hin as [-> | Hin]; done.
Qed.

(** C8.  For every authenticated principal, whatever its role, whose
    permissions do not contain manage_students, the guards
    [requirePermission('manage_students')] and [requirePermissions] of any
    list that contains manage_students fail with a 403 error.  For every
    permission, the single-permission guard passes exactly when the
    permission is a member of the principal's permissions array; the
    role claim is not consulted. *)
Theorem permission_guard (req : Request) (u : object) :
  user req = Some u ->
  (lacks_permission u MANAGE_STUDENTS ->
   requirePermission MANAGE_STUDENTS req
   = NextError (forbiddenError "Permission required: manage_students")
   /\ forall required, MANAGE_STUDENTS ∈ required ->
        requirePermissions required req
        = NextError (forbiddenError ("Permissions required: " +:+ join ", " required)))
  /\ (forall p role,
        let req' := {| user := Some (<["role" := role]> u); agency := agency req;
                       params := params req; route_path := route_path req |} in
        (holds_permission u p -> requirePermission p req' = Next req')
        /\ (lacks_permission u p ->
            requirePermission p req'
            = NextError (forbiddenError ("Permission required: " +:+ p)))).
Proof.
  intros Huser. split.
  - intros Hlacks. split.
    + unfold requirePermission. rewrite Huser.
      destruct Hlacks as [-> | (perms & -> & Hnot)]; simpl; [done |].
      by rewrite bool_decide_eq_false_2.
    + intros required Hin. unfold requirePermissions. rewrite Huser.
      by rewrite (every_permission_lacking u MANAGE_STUDENTS required).
  - intros p role req'. unfold requirePermission. simpl.
    rewrite lookup_insert_ne by done. split.
    + intros (perms & -> & Hin). simpl. by rewrite bool_decide_eq_true_2.
    + intros [-> | (perms & -> & Hnot)]; simpl; [done |].
      by rewrite bool_decide_eq_false_2.
Qed.

Lemma permission_guard_witness :
  requirePermission MANAGE_STUDENTS (sample_request sample_viewer "ag1")
  = NextError (forbiddenError "Permission required: manage_students").
Proof.
  apply (permission_guard (sample_request sample_viewer "ag1") sample_viewer eq_refl).
  right. exists ["view_analytics"]. split; [reflexivity |].
  unfold MANAGE_STUDENTS. intros Hin.
  apply elem_of_cons in Hin as [Heq | Hin]; [discriminate | by apply elem_of_nil in Hin].
Defined.

(** ** C9: the rate limiter of the auth endpoints *)

Section AuthLimiter.
Variable key : string.

(** The first request of a key, or the first after its window elapsed,
    opens a window; it is admitted and counted unless it succeeds. *)
Lemma limit_idle (st : store) (h : Hit) :
  hit_ip h = key ->
  current authRateLimiter (hit_time h) key st = None ->
  limit authRateLimiter st h
  = (<[key := {| windowStart := hit_time h;
                 count := if hit_status h <? 400 then 0 else 1 |}]> st,
     Passed (hit_status h)).
Proof.
  intros Hip Hidle. unfold limit, increment. rewrite Hip, Hidle. simpl.
  destruct (hit_status h <? 400); [| done].
  unfold decrement. rewrite lookup_insert_eq. simpl.
  by rewrite insert_insert_eq.
Qed.

(** A request inside the current window of its key. *)
Lemma limit_live (st : store) (h : Hit) (w : RateWindow) :
  st !! key = Some w ->
  in_window key (windowStart w) h ->
  0 <= count w ->
  limit authRateLimiter st h
  = if count w + 1 >? 5 then (<[key := bump w 1]> st, TooManyRequests)
    else (<[key := bump w (if hit_status h <? 400 then 0 else 1)]> st,
          Passed (hit_status h)).
Proof.
  intros Hw [Hip Htime] Hcount.
  unfold limit, increment, current. rewrite Hip, Hw.
  replace (hit_time h <? windowStart w + windowMs authRateLimiter) with true by lia.
  change (max authRateLimiter) with 5. simpl.
  destruct (count w + 1 >? 5); [done |].
  destruct (hit_status h <? 400); [| done].
  unfold decrement. rewrite lookup_insert_eq. simpl.
  replace (0 <? count w + 1) with true by lia.
  rewrite insert_insert_eq. unfold bump. do 3 f_equal. lia.
Qed.

(** Failed attempts inside a window are admitted and counted one by one
    as long as the cap is not exceeded. *)
Lemma serve_failed (hits : list Hit) (st : store) (w : RateWindow) :
  st !! key = Some w ->
  0 <= count w ->
  count w + Z.of_nat (length hits) <= 5 ->
  Forall (in_window key (windowStart w)) hits ->
  Forall failed hits ->
  serve authRateLimiter st hits
  = (<[key := bump w (Z.of_nat (length hits))]> st,
     (fun h => Passed (hit_status h)) <$> hits).
Proof.
  revert st w. induction hits as [| h rest IH]; intros st w Hw Hcount Hcap Hin Hfail.
  - simpl. unfold bump. rewrite Z.add_0_r.
    rewrite insert_id; [done |]. by destruct w.
  - apply Forall_cons in Hin as [Hh Hin]. apply Forall_cons in Hfail as [Hf Hfail].
    unfold failed in Hf. simpl length in Hcap.
    cbn [serve]. rewrite (limit_live st h w Hw Hh Hcount).
    replace (count w + 1 >? 5) with false by lia.
    replace (hit_status h <? 400) with false by lia.
    rewrite (IH _ (bump w 1)); simpl; try done; try lia.
    + rewrite insert_insert_eq. unfold bump. simpl.
      do 3 f_equal. lia.
    + by rewrite lookup_insert_eq.
Qed.

Lemma serve_app (opts : Options) (st : store) (hits more : list Hit) :
  serve opts st (hits ++ more)
  = let '(st1, rs) := serve opts st hits in
    let '(st2, rs') := serve opts st1 more in
    (st2, (rs ++ rs')%list).
Proof.
  revert st. induction hits as [| h rest IH]; intros st; simpl.
  - by destruct (serve opts st more).
  - destruct (limit opts st h) as [st1 r]. rewrite IH.
    destruct (serve opts st1 rest) as [st2 rs].
    by destruct (serve opts st2 more).
Qed.

(** A successful attempt is admitted and leaves the key below the cap. *)
Lemma limit_succeeded (st : store) (h : Hit) :
  below_cap key st -> hit_ip h = key -> succeeded h ->
  snd (limit authRateLimiter st h) = Passed (hit_status h)
  /\ below_cap key (fst (limit authRateLimiter st h))
  /\ counted authRateLimiter (hit_time h) key (fst (limit authRateLimiter st h))
     = counted authRateLimiter (hit_time h) key st.
Proof.
  intros Hcap Hip Hok. unfold succeeded in Hok.
  destruct (current authRateLimiter (hit_time h) key st) as [w |] eqn:Hcur.
  - unfold current in Hcur. destruct (st !! key) as [w' |] eqn:Hw; [| discriminate].
    destruct (Z.ltb_spec (hit_time h) (windowStart w' + windowMs authRateLimiter));
      [| discriminate].
    injection Hcur as ->. destruct (Hcap w Hw) as [Hlo Hhi].
    rewrite (limit_live st h w Hw) by done.
    replace (count w + 1 >? 5) with false by lia.
    replace (hit_status h <? 400) with true by lia. simpl.
    split; [done |]. split.
    + intros w'. rewrite lookup_insert_eq. intros [= <-]. simpl. lia.
    + unfold counted, current. rewrite lookup_insert_eq, Hw. simpl.
      destruct (hit_time h <? windowStart w + 15 * 60 * 1000); simpl; lia.
  - rewrite (limit_idle st h Hip Hcur).
    replace (hit_status h <? 400) with true by lia. simpl.
    split; [done |]. split.
    + intros w'. rewrite lookup_insert_eq. intros [= <-]. simpl. lia.
    + unfold counted. rewrite Hcur. unfold current.
      rewrite lookup_insert_eq. simpl.
      by destruct (hit_time h <? hit_time h + 15 * 60 * 1000).
Qed.

(** Successful attempts, however many and whenever they arrive, are all
    admitted. *)
Lemma serve_succeeded (hits : list Hit) (st : store) :
  below_cap key st ->
  Forall (fun h => hit_ip h = key) hits ->
  Forall succeeded hits ->
  snd (serve authRateLimiter st hits) = (fun h => Passed (hit_status h)) <$> hits
  /\ below_cap key (fst (serve authRateLimiter st hits)).
Proof.
  revert st. induction hits as [| h rest IH]; intros st Hcap Hip Hok; [done |].
  apply Forall_cons in Hip as [Hh Hip]. apply Forall_cons in Hok as [Ho Hok].
  destruct (limit_succeeded st h Hcap Hh Ho) as (Hr & Hcap' & _).
  cbn [serve]. destruct (limit authRateLimiter st h) as [st1 r]. simpl in *.
  destruct (IH st1 Hcap' Hip Hok) as [Hrs Hcap''].
  destruct (serve authRateLimiter st1 rest) as [st2 rs]. simpl in *.
  by subst.
Qed.

End AuthLimiter.

(** C9.  The limiter of the auth endpoints has a window of 15 minutes and
    a cap of 5 and is keyed by IP.  (1) Within one window the first five
    failed attempts of a key are admitted and a sixth request is rejected
    with the 429 answer.  (2) A request that arrives when the key has no
    window, or after its window elapsed, is admitted again, whatever the
    count was.  (3) Successful attempts never accrue: each leaves the
    count of its key as it was, so any number of them is admitted. *)
Theorem auth_rate_limit (key : string) (st : store) :
  windowMs authRateLimiter = 900000 /\ max authRateLimiter = 5
  /\ (forall first others sixth,
        hit_ip first = key ->
        current authRateLimiter (hit_time first) key st = None ->
        length others = 4%nat ->
        Forall (in_window key (hit_time first)) (others ++ [sixth]) ->
        Forall failed (first :: others) ->
        snd (serve authRateLimiter st (first :: others ++ [sixth]))
        = ((fun h => Passed (hit_status h)) <$> first :: others) ++ [TooManyRequests])%list
  /\ (forall h,
        hit_ip h = key ->
        (forall w, st !! key = Some w ->
                   windowStart w + windowMs authRateLimiter <= hit_time h) ->
        snd (limit authRateLimiter st h) = Passed (hit_status h))
  /\ (forall h,
        hit_ip h = key -> succeeded h -> below_cap key st ->
        snd (limit authRateLimiter st h) = Passed (hit_status h)
        /\ counted authRateLimiter (hit_time h) key (fst (limit authRateLimiter st h))
           = counted authRateLimiter (hit_time h) key st)
  /\ (forall hits,
        Forall (fun h => hit_ip h = key) hits -> Forall succeeded hits ->
        below_cap key st ->
        snd (serve authRateLimiter st hits) = (fun h => Passed (hit_status h)) <$> hits).
Proof.
  split; [reflexivity |]. split; [reflexivity |]. repeat split.
  - intros first others sixth Hip Hidle Hlen Hin Hfail.
    apply Forall_app in Hin as [Hin Hsixth]. apply Forall_cons in Hsixth as [Hsixth _].
    apply Forall_cons in Hfail as [Hfirst Hfail]. unfold failed in Hfirst.
    cbn [serve]. rewrite (limit_idle key st first Hip Hidle).
    replace (hit_status first <? 400) with false by lia.
    rewrite serve_app.
    set (w := {| windowStart := hit_time first; count := 1 |}).
    rewrite (serve_failed key others _ w);
      [| by rewrite lookup_insert_eq | simpl; lia | simpl; lia | done | done].
    cbn [serve]. rewrite (limit_live key _ sixth (bump w (Z.of_nat (length others))));
      [| by rewrite lookup_insert_eq | done | simpl; lia].
    rewrite Hlen. reflexivity.
  - intros h Hip Helapsed.
    rewrite (limit_idle key st h Hip); [done |].
    unfold current. destruct (st !! key) as [w |]; [| done].
    specialize (Helapsed w eq_refl).
    by replace (hit_time h <? windowStart w + windowMs authRateLimiter) with false by lia.
  - by destruct (limit_succeeded key st h) as (? & _ & _).
  - by destruct (limit_succeeded key st h) as (_ & _ & ?).
  - intros hits Hip Hok Hcap.
    by destruct (serve_succeeded key hits st) as [? _].
Qed.

Lemma auth_rate_limit_witness :
  snd (serve authRateLimiter ∅
         [attempt 0 401; attempt 1000 401; attempt 2000 401; attempt 3000 401;
          attempt 4000 401; attempt 5000 401])
  = [Passed 401; Passed 401; Passed 401; Passed 401; Passed 401; TooManyRequests].
Proof.
  destruct (auth_rate_limit "203.0.113.7" ∅) as (_ & _ & Hsix & _).
  apply (Hsix (attempt 0 401)
           [attempt 1000 401; attempt 2000 401; attempt 3000 401; attempt 4000 401]
           (attempt 5000 401)).
  - reflexivity.
  - reflexivity.
  - reflexivity.
  - repeat constructor; simpl; lia.
  - repeat constructor; unfold failed; simpl; lia.
Defined.

(** * Further properties of the code *)

(** ** jwt.ts: password-reset tokens, expiry helpers, token pairs *)

(** X1.  A password-reset token verifies to the userId and email it was
    issued for during its hour, and fails with 'Password reset token
    expired' from the end of that hour on. *)
Theorem reset_token_round_trip (cfg : Config) (issued now : Z) (uid mail : string) :
  loaded cfg ->
  exists token,
    generatePasswordResetToken cfg issued uid mail = Return token
    /\ verifyPasswordResetToken cfg now token
       = if now <? issued + 3600
         then Return {| reset_userId := Some (JStr uid);
                        reset_email := Some (JStr mail) |}
         else Throw (MkError "Password reset token expired").
Proof.
  intros Hcfg. eexists. split; [by apply generatePasswordResetToken_claims |].
  unfold verifyPasswordResetToken.
  rewrite (verify_own _ _ Hcfg _ _ (issued + 3600) "password-reset");
    try (unfold with_registered_claims; by lookup_literal).
  destruct (Z.ltb_spec now (issued + 3600)).
  - replace (now >=? issued + 3600) with false by lia. simpl.
    rewrite bool_decide_eq_true_2
      by (unfold with_registered_claims; by lookup_literal).
    simpl. rewrite bool_decide_eq_true_2
      by (unfold with_registered_claims; by lookup_literal).
    simpl. unfold with_registered_claims. by lookup_literal.
  - by replace (now >=? issued + 3600) with true by lia.
Qed.

Lemma reset_token_round_trip_witness :
  exists token,
    generatePasswordResetToken sample_config 1000 "u1" "ada@agency.io" = Return token
    /\ verifyPasswordResetToken sample_config 2000 token
       = Return {| reset_userId := Some (JStr "u1");
                   reset_email := Some (JStr "ada@agency.io") |}.
Proof.
  apply (reset_token_round_trip sample_config 1000 2000 "u1" "ada@agency.io").
  unfold loaded. simpl. discriminate.
Defined.

(** X2.  The error 'Invalid token type' that [verifyPasswordResetToken]
    throws for a wrong type claim is thrown inside its own [try]: the
    caller never sees that message.  A token that passes every check of
    [jwt.verify] but has another type fails with 'Password reset token
    verification failed'. *)
Theorem reset_token_type_error (cfg : Config) (now : Z) :
  (forall token e,
     verifyPasswordResetToken cfg now token = Throw e ->
     e = MkError "Password reset token expired"
     \/ e = MkError "Invalid password reset token"
     \/ e = MkError "Password reset token verification failed")
  /\ (forall claims exp,
        loaded cfg ->
        claims !! "nbf" = None ->
        claims !! "exp" = Some (JNum exp) -> now < exp ->
        claims !! "aud" = Some (JStr "password-reset") ->
        claims !! "iss" = Some (JStr "study-abroad-saas") ->
        claims !! "type" ≠ Some (JStr "password_reset") ->
        verifyPasswordResetToken cfg now (signed_token cfg claims)
        = Throw (MkError "Password reset token verification failed")).
Proof.
  split.
  - intros token e. unfold verifyPasswordResetToken, Jwt.verify.
    intros H. repeat case_match; simplify_eq; auto.
  - intros claims exp Hcfg Hnbf Hexp Hlive Haud Hiss Htype.
    unfold verifyPasswordResetToken, signed_token.
    rewrite (verify_own _ _ Hcfg _ _ exp "password-reset") by done.
    replace (now >=? exp) with false by lia. simpl.
    rewrite (bool_decide_eq_true_2 _ Hiss). simpl.
    by rewrite (bool_decide_eq_false_2 _ Htype).
Qed.

Lemma reset_token_type_error_witness :
  verifyPasswordResetToken sample_config 2000
    (signed_token sample_config
       {[ "userId" := JStr "u1"; "type" := JStr "access";
          "exp" := JNum 4600; "aud" := JStr "password-reset";
          "iss" := JStr "study-abroad-saas" ]})
  = Throw (MkError "Password reset token verification failed").
Proof.
  destruct (reset_token_type_error sample_config 2000) as [_ Htype].
  apply (Htype _ 4600);
    first [ by lookup_literal
          | lia
          | unfold loaded; simpl; discriminate ].
Defined.

(** X3.  [isTokenExpired] and [verifyToken] disagree at the very second
    of expiry.  For an access token whose exp is [issued + lifetime]
    (and not 0), [isTokenExpired] holds exactly when exp < now, whereas
    [verifyToken] reports 'Token expired' exactly when exp <= now: at
    now = exp the helper still says the token is not expired. *)
Theorem isTokenExpired_boundary (js : Coercions) (cfg : Config) (issued now : Z)
    (P : JWTPayload) :
  loaded cfg ->
  issued + JWT_EXPIRES_IN cfg ≠ 0 ->
  exists token,
    generateAccessToken cfg issued P = Return token
    /\ isTokenExpired js now token = (issued + JWT_EXPIRES_IN cfg <? now)
    /\ (verifyToken cfg now token = Throw (MkError "Token expired")
        <-> issued + JWT_EXPIRES_IN cfg <= now)
    /\ isTokenExpired js (issued + JWT_EXPIRES_IN cfg) token = false
    /\ verifyToken cfg (issued + JWT_EXPIRES_IN cfg) token
       = Throw (MkError "Token expired").
Proof.
  intros Hcfg Hexp.
  eexists. split; [by apply generateAccessToken_claims |].
  assert (Hexpired : forall t,
    isTokenExpired js t
      (signed_token cfg
         (with_registered_claims (<["type" := JStr "access"]> (payload_object P))
            (session_sign_options (JWT_EXPIRES_IN cfg)) issued))
    = (issued + JWT_EXPIRES_IN cfg <? t)).
  { intros t. unfold isTokenExpired, decodeToken, signed_token, with_registered_claims.
    simpl. lookup_literal. simpl.
    by rewrite (proj2 (Z.eqb_neq _ _) Hexp). }
  pose proof (verifyToken_session cfg issued) as Hverify.
  unfold signed_token in *.
  split; [apply Hexpired |]. split; [| split].
  - rewrite Hverify by (done || apply access_payload_nbf).
    destruct (Z.geb_spec now (issued + JWT_EXPIRES_IN cfg)); split;
      (done || lia).
  - rewrite Hexpired. lia.
  - rewrite Hverify by (done || apply access_payload_nbf).
    by replace (issued + JWT_EXPIRES_IN cfg >=? issued + JWT_EXPIRES_IN cfg)
      with true by lia.
Qed.

Lemma isTokenExpired_boundary_witness :
  exists token,
    generateAccessToken sample_config 1000 sample_principal = Return token
    /\ isTokenExpired sample_coercions 605800 token = false
    /\ verifyToken sample_config 605800 token = Throw (MkError "Token expired").
Proof.
  destruct (isTokenExpired_boundary sample_coercions sample_config 1000 605800
              sample_principal) as (token & Hgen & _ & _ & Hhelper & Hverify).
  - unfold loaded. simpl. discriminate.
  - simpl. lia.
  - exists token. by repeat split.
Defined.

(** X4.  [generateTokens] signs its two tokens one after the other, and
    each call of [jwt.sign] reads the clock: the iat of a token is the
    reading of its own call, [issued] for the access token and [later]
    for the refresh token, and its exp claim is that reading plus its
    configured lifetime.  From the expiry of the access token to that of
    the refresh token, [verifyToken] rejects the access token as expired
    and still accepts the refresh token of the same pair. *)
Theorem token_pair_lifetimes (cfg : Config) (issued later now : Z) (P : JWTPayload) :
  loaded cfg ->
  exists pair access refresh,
    generateTokensAt cfg issued later P = Return pair
    /\ decodeToken (accessToken pair) = Some access
    /\ decodeToken (refreshToken pair) = Some refresh
    /\ access !! "iat" = Some (JNum issued)
    /\ refresh !! "iat" = Some (JNum later)
    /\ access !! "exp" = Some (JNum (issued + JWT_EXPIRES_IN cfg))
    /\ refresh !! "exp" = Some (JNum (later + JWT_REFRESH_EXPIRES_IN cfg))
    /\ (issued + JWT_EXPIRES_IN cfg <= now < later + JWT_REFRESH_EXPIRES_IN cfg ->
        verifyToken cfg now (accessToken pair) = Throw (MkError "Token expired")
        /\ verifyToken cfg now (refreshToken pair) = Return refresh).
Proof.
  intros Hcfg.
  destruct (generateTokensAt_pair cfg issued later P Hcfg) as (pair & Hp & Hacc & Hr).
  rewrite generateAccessToken_claims in Hacc by done.
  rewrite generateRefreshToken_claims in Hr by done.
  injection Hacc as Hacc. injection Hr as Hr.
  exists pair. eexists _, _. split; [done |].
  rewrite <- Hacc, <- Hr. simpl.
  split; [reflexivity |]. split; [reflexivity |].
  repeat (split; [unfold with_registered_claims; by lookup_literal |]).
  intros [Hlo Hhi].
  pose proof (verifyToken_session cfg issued now) as Hverify.
  pose proof (verifyToken_session cfg later now) as Hverify'.
  unfold signed_token in Hverify, Hverify'. split.
  - rewrite Hverify by (done || apply access_payload_nbf).
    by replace (now >=? issued + JWT_EXPIRES_IN cfg) with true by lia.
  - rewrite Hverify' by (done || by lookup_literal).
    by replace (now >=? later + JWT_REFRESH_EXPIRES_IN cfg) with false by lia.
Qed.

Lemma token_pair_lifetimes_witness :
  exists pair,
    generateTokensAt sample_config 1000 1001 sample_principal = Return pair
    /\ verifyToken sample_config 700000 (accessToken pair)
       = Throw (MkError "Token expired")
    /\ is_Return (verifyToken sample_config 700000 (refreshToken pair)) = true.
Proof.
  destruct (token_pair_lifetimes sample_config 1000 1001 700000 sample_principal)
    as (pair & access & refresh & Hp & _ & _ & _ & _ & _ & _ & Hbetween).
  - unfold loaded. simpl. discriminate.
  - destruct Hbetween as [Hacc Href]; [simpl; lia |].
    exists pair. split; [done |]. split; [done |]. by rewrite Href.
Defined.

(** X5.  [getTokenExpiration] of an access token is the instant of its
    exp claim in milliseconds, as long as that is a valid date and the
    exp claim is not 0; a token that does not decode has none. *)
Theorem getTokenExpiration_access (js : Coercions) (cfg : Config) (issued : Z)
    (P : JWTPayload) :
  loaded cfg ->
  issued + JWT_EXPIRES_IN cfg ≠ 0 ->
  Z.abs (issued + JWT_EXPIRES_IN cfg) <= 8640000000000 ->
  (exists token,
     generateAccessToken cfg issued P = Return token
     /\ getTokenExpiration js token
        = Some (DateAt ((issued + JWT_EXPIRES_IN cfg) * 1000)))
  /\ forall raw, getTokenExpiration js (Jwt.Malformed raw) = None.
Proof.
  intros Hcfg Hexp Hrange. split; [| done].
  eexists. split; [by apply generateAccessToken_claims |].
  unfold getTokenExpiration, decodeToken, with_registered_claims. simpl.
  lookup_literal. simpl. rewrite (proj2 (Z.eqb_neq _ _) Hexp). simpl.
  unfold new_Date.
  by replace (Z.abs ((issued + JWT_EXPIRES_IN cfg) * 1000) <=? 8640000000000000)
    with true by lia.
Qed.

Lemma getTokenExpiration_access_witness :
  exists token,
    generateAccessToken sample_config 1000 sample_principal = Return token
    /\ getTokenExpiration sample_coercions token = Some (DateAt 605800000).
Proof.
  destruct (getTokenExpiration_access sample_coercions sample_config 1000
              sample_principal) as [Hdate _].
  - unfold loaded. simpl. discriminate.
  - simpl. lia.
  - simpl. lia.
  - exact Hdate.
Defined.

(** ** auth.ts: the guards on a verified token *)

(** X6.  [verifyToken] does not look at the type claim: during its
    lifetime a refresh token is accepted like an access token.  On the
    payload it returns, a role guard that lists the principal's role
    passes; every permission guard fails with a 403 error, since a
    refresh token has no permissions claim. *)
Theorem refresh_token_as_session (cfg : Config) (issued now : Z) (P : JWTPayload) :
  loaded cfg ->
  now < issued + JWT_REFRESH_EXPIRES_IN cfg ->
  exists pair decoded,
    generateTokens cfg issued P = Return pair
    /\ verifyToken cfg now (refreshToken pair) = Return decoded
    /\ decoded !! "type" = Some (JStr "refresh")
    /\ (forall allowed, role P ∈ allowed ->
          requireRole allowed (request_of decoded) = Next (request_of decoded))
    /\ (forall p,
          requirePermission p (request_of decoded)
          = NextError (forbiddenError ("Permission required: " +:+ p))).
Proof.
  intros Hcfg Hlive.
  destruct (generateTokens_refresh cfg issued P Hcfg) as (pair & Hp & _ & Hr).
  rewrite generateRefreshToken_claims in Hr by done. injection Hr as Hr.
  exists pair. eexists. split; [done |]. rewrite <- Hr.
  pose proof (verifyToken_session cfg issued now) as Hverify.
  unfold signed_token in Hverify.
  rewrite Hverify by (done || by lookup_literal).
  replace (now >=? issued + JWT_REFRESH_EXPIRES_IN cfg) with false by lia.
  split; [reflexivity |].
  split; [unfold with_registered_claims; by lookup_literal |]. split.
  - intros allowed Hin. unfold requireRole, request_of. simpl.
    rewrite bool_decide_eq_true_2; [done |].
    apply Exists_exists. exists (role P). split; [done |].
    unfold with_registered_claims. by lookup_literal.
  - intros p. unfold requirePermission, request_of, with_registered_claims. simpl.
    by lookup_literal.
Qed.

Lemma refresh_token_as_session_witness :
  exists pair decoded,
    generateTokens sample_config 1000 sample_principal = Return pair
    /\ verifyToken sample_config 2000 (refreshToken pair) = Return decoded
    /\ requirePermission MANAGE_STUDENTS (request_of decoded)
       = NextError (forbiddenError "Permission required: manage_students").
Proof.
  destruct (refresh_token_as_session sample_config 1000 2000 sample_principal)
    as (pair & decoded & Hp & Hv & _ & _ & Hperm).
  - unfold loaded. simpl. discriminate.
  - simpl. lia.
  - exists pair, decoded. split; [done |]. split; [done |].
    apply (Hperm MANAGE_STUDENTS).
Defined.

Lemma every_permission_array (u : object) (perms required : list string) :
  u !! "permissions" = Some (JArr perms) ->
  every_permission u required = Some (bool_decide (required ⊆ perms)).
Proof.
  intros Hperms. induction required as [| p rest IH]; cbn [every_permission].
  - by rewrite bool_decide_eq_true_2 by apply list_subseteq_nil.
  - unfold optional_includes. rewrite Hperms. cbn [js_includes].
    destruct (decide (p ∈ perms)) as [Hp | Hp].
    + rewrite (bool_decide_eq_true_2 _ Hp), IH. f_equal.
      apply bool_decide_ext. split.
      * intros Hrest q [-> | Hq]%elem_of_cons; [done | by apply Hrest].
      * intros Hall q Hq. apply Hall. by right.
    + rewrite (bool_decide_eq_false_2 _ Hp). f_equal. symmetry.
      apply bool_decide_eq_false. intros Hall. apply Hp, Hall. by left.
Qed.

(** X7.  [requirePermissions] asks for all listed permissions: for a
    principal whose permissions claim is an array, it passes exactly
    when every required permission is in the array, and with one
    required permission it passes exactly when [requirePermission]
    does.  With an empty list it passes for every authenticated
    principal, permissions claim or not. *)
Theorem requirePermissions_all (req : Request) (u : object) :
  user req = Some u ->
  requirePermissions [] req = Next req
  /\ forall perms, u !! "permissions" = Some (JArr perms) ->
       (forall required,
          requirePermissions required req = Next req <-> required ⊆ perms)
       /\ (forall p,
             requirePermissions [p] req = Next req
             <-> requirePermission p req = Next req).
Proof.
  intros Huser. split.
  - unfold requirePermissions. by rewrite Huser.
  - intros perms Hperms.
    assert (Hall : forall required,
      requirePermissions required req = Next req <-> required ⊆ perms).
    { intros required. unfold requirePermissions.
      rewrite Huser, (every_permission_array u perms required Hperms).
      case_bool_decide; split; (done || discriminate). }
    split; [done |].
    intros p. rewrite Hall. unfold requirePermission.
    rewrite Huser, Hperms. simpl.
    case_bool_decide as Hp; split; try done; try discriminate.
    + intros _ q Hq. apply elem_of_cons in Hq as [-> | Hq]; [done |].
      by apply elem_of_nil in Hq.
    + intros Hsub. destruct Hp. apply Hsub. by left.
Qed.

Lemma requirePermissions_all_witness :
  requirePermissions ["manage_content"] (sample_request sample_editor "ag1")
  = Next (sample_request sample_editor "ag1").
Proof.
  destruct (requirePermissions_all (sample_request sample_editor "ag1")
              sample_editor eq_refl) as [_ Harray].
  destruct (Harray ["manage_content"] eq_refl) as [Hall _].
  apply Hall. intros q Hq. exact Hq.
Defined.

(** ** auth.ts: the authenticating middlewares *)

Section Authenticating.
Variable parse : string -> Jwt.token.
Variable cast : Mongoose.ObjectIdCast.
Variable cfg : Config.
Variable now : Z.
Variable superAdmins : SuperAdminModel.collection.
Variable clients : ClientModel.collection.
Variable agencies : collection.

Lemma authenticate_presented (authHeader : option string) (req : Request)
    (decoded : object) :
  presents parse cfg now authHeader decoded ->
  Authenticate.authenticate parse cast cfg now superAdmins clients authHeader req
  = match Authenticate.lookup_user cast superAdmins clients decoded with
    | Throw (Authenticate.ThrownCustom e) => Authenticate.AuthError e
    | Throw Authenticate.ThrownCast => Authenticate.AuthCastError
    | Return found =>
        if negb found
           && negb (Authenticate.role_in (decoded !! "role") Authenticate.agency_roles)
        then Authenticate.AuthError (unauthorizedError "User not found or inactive")
        else Authenticate.AuthNext (Authenticate.set_user req decoded)
    end.
Proof.
  intros (token & Hext & Hne & Hverify).
  unfold Authenticate.authenticate.
  by rewrite Hext, (proj2 (String.eqb_neq _ _) Hne), Hverify.
Qed.

End Authenticating.

(** With an agency role the [switch] finds no user, and the check after
    it lets the request pass. *)
Lemma authenticate_agency_next (parse : string -> Jwt.token)
    (cast : Mongoose.ObjectIdCast) (cfg : Config)
    (now : Z) (superAdmins : SuperAdminModel.collection)
    (clients : ClientModel.collection) (authHeader : option string)
    (req : Request) (decoded : object) :
  presents parse cfg now authHeader decoded ->
  Authenticate.role_in (decoded !! "role") Authenticate.agency_roles = true ->
  Authenticate.authenticate parse cast cfg now superAdmins clients authHeader req
  = Authenticate.AuthNext (Authenticate.set_user req decoded).
Proof.
  intros Hpres Hrole.
  rewrite (authenticate_presented parse cast cfg now superAdmins clients _ req _ Hpres).
  unfold Authenticate.lookup_user, Authenticate.role_in, Authenticate.agency_roles in *.
  apply bool_decide_eq_true in Hrole.
  assert (Hsa : decoded !! "role" ≠ Some (JStr SUPER_ADMIN)).
  { intros Heq. rewrite Heq in Hrole.
    rewrite !Exists_cons, Exists_nil in Hrole.
    destruct Hrole as [H | [H | [H | []]]]; discriminate. }
  assert (Hcl : decoded !! "role" ≠ Some (JStr CLIENT)).
  { intros Heq. rewrite Heq in Hrole.
    rewrite !Exists_cons, Exists_nil in Hrole.
    destruct Hrole as [H | [H | [H | []]]]; discriminate. }
  rewrite (bool_decide_eq_false_2 _ Hsa), (bool_decide_eq_false_2 _ Hcl).
  by rewrite (bool_decide_eq_true_2 _ Hrole).
Qed.

(** X8.  [authenticate] answers 401 'Access token is required' for every
    request whose Authorization header is not the word Bearer, one space
    and a non-empty token without spaces: an absent header, another
    scheme, and also 'Bearer ' with nothing after it. *)
Theorem authenticate_requires_token (parse : string -> Jwt.token)
    (cast : Mongoose.ObjectIdCast) (cfg : Config)
    (now : Z) (superAdmins : SuperAdminModel.collection)
    (clients : ClientModel.collection) (authHeader : option string)
    (req : Request) :
  (forall t, authHeader = Some ("Bearer " +:+ t) ->
             has_char " " t = false -> t = "") ->
  Authenticate.authenticate parse cast cfg now superAdmins clients authHeader req
  = Authenticate.AuthError (unauthorizedError "Access token is required").
Proof.
  intros Hform. unfold Authenticate.authenticate.
  destruct (extractTokenFromHeader authHeader) as [t |] eqn:Hext; [| done].
  destruct (extractTokenFromHeader_Some _ _ Hext) as [Hhead Hspace].
  by rewrite (Hform t Hhead Hspace).
Qed.

Lemma authenticate_requires_token_witness :
  Authenticate.authenticate (sample_parse sample_editor_claims) hex_cast
    sample_config 2000
    [] sample_clients (Some "Bearer ") blank_request
  = Authenticate.AuthError (unauthorizedError "Access token is required").
Proof.
  apply authenticate_requires_token.
  intros t Heq _. cbv in Heq. congruence.
Defined.

(** X9.  For a token that verifies, [authenticate] consults no store when
    the role claim is one of the three agency roles: the request goes on
    with the decoded payload as [req.user], whatever the stores hold.  A
    verified token whose role is none of the five roles is answered with
    401 'User not found or inactive'. *)
Theorem authenticate_by_role (parse : string -> Jwt.token)
    (cast : Mongoose.ObjectIdCast) (cfg : Config)
    (now : Z) (superAdmins : SuperAdminModel.collection)
    (clients : ClientModel.collection) (authHeader : option string)
    (req : Request) (decoded : object) :
  presents parse cfg now authHeader decoded ->
  (Authenticate.role_in (decoded !! "role") Authenticate.agency_roles = true ->
   Authenticate.authenticate parse cast cfg now superAdmins clients authHeader req
   = Authenticate.AuthNext (Authenticate.set_user req decoded))
  /\ (Authenticate.role_in (decoded !! "role")
        (SUPER_ADMIN :: CLIENT :: Authenticate.agency_roles) = false ->
      Authenticate.authenticate parse cast cfg now superAdmins clients authHeader req
      = Authenticate.AuthError (unauthorizedError "User not found or inactive")).
Proof.
  intros Hpres. split; [by apply authenticate_agency_next |].
  rewrite (authenticate_presented parse cast cfg now superAdmins clients _ req _ Hpres).
  unfold Authenticate.lookup_user, Authenticate.role_in, Authenticate.agency_roles.
  intros Hrole. apply bool_decide_eq_false in Hrole.
  rewrite !Exists_cons, Exists_nil in Hrole.
  assert (Hsa : decoded !! "role" ≠ Some (JStr SUPER_ADMIN)) by tauto.
  assert (Hcl : decoded !! "role" ≠ Some (JStr CLIENT)) by tauto.
  assert (Hag : ~ Exists (fun r => decoded !! "role" = Some (JStr r))
                  [AGENCY_ADMIN; AGENCY_EDITOR; AGENCY_VIEWER]).
  { rewrite !Exists_cons, Exists_nil. tauto. }
  by rewrite (bool_decide_eq_false_2 _ Hsa), (bool_decide_eq_false_2 _ Hcl),
    (bool_decide_eq_false_2 _ Hag).
Qed.

Lemma authenticate_by_role_witness :
  Authenticate.authenticate (sample_parse sample_editor_claims) hex_cast
    sample_config 2000
    [] [] (Some "Bearer tok") blank_request
  = Authenticate.AuthNext (Authenticate.set_user blank_request sample_editor_claims).
Proof.
  apply authenticate_by_role.
  - exists "tok". split; [vm_compute; reflexivity |]. split; [discriminate |].
    vm_compute. reflexivity.
  - vm_compute. reflexivity.
Defined.

(** X10.  For a verified token with the client role, [authenticate] looks
    the client up by the userId claim, whatever that claim is: a userId
    that mongoose cannot cast to an ObjectId makes the query fail, and
    its CastError is passed on; an unknown client gets 401 'User not
    found or inactive', a client whose status is not active gets 401
    'Account is suspended or inactive', and an active client goes on
    with the decoded payload as [req.user]. *)
Theorem authenticate_client (parse : string -> Jwt.token)
    (cast : Mongoose.ObjectIdCast) (cfg : Config)
    (now : Z) (superAdmins : SuperAdminModel.collection)
    (clients : ClientModel.collection) (authHeader : option string)
    (req : Request) (decoded : object) :
  presents parse cfg now authHeader decoded ->
  decoded !! "role" = Some (JStr CLIENT) ->
  Authenticate.authenticate parse cast cfg now superAdmins clients authHeader req
  = match ClientModel.findById cast clients (decoded !! "userId") with
    | Throw _ => Authenticate.AuthCastError
    | Return None =>
        Authenticate.AuthError (unauthorizedError "User not found or inactive")
    | Return (Some c) =>
        match ClientModel.status c with
        | ClientModel.active =>
            Authenticate.AuthNext (Authenticate.set_user req decoded)
        | _ =>
            Authenticate.AuthError
              (unauthorizedError "Account is suspended or inactive")
        end
    end.
Proof.
  intros Hpres Hrole.
  rewrite (authenticate_presented parse cast cfg now superAdmins clients _ req _ Hpres).
  unfold Authenticate.lookup_user, Authenticate.role_in, Authenticate.agency_roles.
  rewrite Hrole. simpl.
  destruct (ClientModel.findById cast clients _) as [e | [c |]]; [done | | done].
  by destruct (ClientModel.status c).
Qed.

Lemma authenticate_client_witness :
  Authenticate.authenticate (sample_parse sample_client_claims) hex_cast
    sample_config 2000 [] sample_clients (Some "Bearer tok") blank_request
  = Authenticate.AuthError (unauthorizedError "Account is suspended or inactive")
  /\ Authenticate.authenticate (sample_parse (client_claims "c1")) hex_cast
       sample_config 2000 [] sample_clients (Some "Bearer tok") blank_request
     = Authenticate.AuthCastError.
Proof.
  split.
  - rewrite (authenticate_client (sample_parse sample_client_claims) hex_cast
               sample_config 2000 [] sample_clients (Some "Bearer tok")
               blank_request sample_client_claims).
    + vm_compute. reflexivity.
    + exists "tok". split; [vm_compute; reflexivity |]. split; [discriminate |].
      vm_compute. reflexivity.
    + vm_compute. reflexivity.
  - rewrite (authenticate_client (sample_parse (client_claims "c1")) hex_cast
               sample_config 2000 [] sample_clients (Some "Bearer tok")
               blank_request (client_claims "c1")).
    + vm_compute. reflexivity.
    + exists "tok". split; [vm_compute; reflexivity |]. split; [discriminate |].
      vm_compute. reflexivity.
    + vm_compute. reflexivity.
Defined.

(** X12.  For a verified token with the super_admin role,
    [authenticate] looks the super admin up by the userId claim,
    whatever that claim is: a userId that mongoose cannot cast to an
    ObjectId makes the query fail, and its CastError is passed on;
    otherwise the request goes on exactly when the document exists, and
    is answered 401 'User not found or inactive' when it does not.  The
    client store is not consulted. *)
Theorem authenticate_super_admin (parse : string -> Jwt.token)
    (cast : Mongoose.ObjectIdCast) (cfg : Config)
    (now : Z) (superAdmins : SuperAdminModel.collection)
    (clients : ClientModel.collection) (authHeader : option string)
    (req : Request) (decoded : object) :
  presents parse cfg now authHeader decoded ->
  decoded !! "role" = Some (JStr SUPER_ADMIN) ->
  Authenticate.authenticate parse cast cfg now superAdmins clients authHeader req
  = match SuperAdminModel.findById cast superAdmins (decoded !! "userId") with
    | Throw _ => Authenticate.AuthCastError
    | Return (Some _) => Authenticate.AuthNext (Authenticate.set_user req decoded)
    | Return None =>
        Authenticate.AuthError (unauthorizedError "User not found or inactive")
    end.
Proof.
  intros Hpres Hrole.
  rewrite (authenticate_presented parse cast cfg now superAdmins clients _ req _ Hpres).
  unfold Authenticate.lookup_user, Authenticate.role_in, Authenticate.agency_roles.
  rewrite Hrole. simpl.
  by destruct (SuperAdminModel.findById cast superAdmins _) as [e | [a |]].
Qed.

Lemma authenticate_super_admin_witness :
  Authenticate.authenticate (sample_parse sample_root_claims) hex_cast
    sample_config 2000 sample_super_admins sample_clients (Some "Bearer tok")
    blank_request
  = Authenticate.AuthNext (Authenticate.set_user blank_request sample_root_claims).
Proof.
  rewrite (authenticate_super_admin (sample_parse sample_root_claims) hex_cast
             sample_config 2000 sample_super_admins sample_clients
             (Some "Bearer tok") blank_request sample_root_claims).
  - vm_compute. reflexivity.
  - exists "tok". split; [vm_compute; reflexivity |]. split; [discriminate |].
    vm_compute. reflexivity.
  - vm_compute. reflexivity.
Defined.

(** X11.  A token that [verifyToken] rejects is not answered with 401:
    [authenticate] passes the plain [Error] of [verifyToken] on, and
    [errorHandler], which finds neither a status code nor one of the
    names it knows, answers with status 500 and the message of that
    error, which is one of the three of [verifyToken]: 'Token expired',
    'Invalid token' or 'Token verification failed'. *)
Theorem rejected_token_answered_500 (parse : string -> Jwt.token)
    (cast : Mongoose.ObjectIdCast) (cfg : Config)
    (now : Z) (superAdmins : SuperAdminModel.collection)
    (clients : ClientModel.collection) (authHeader : option string)
    (req : Request) (token : string) (e : Error) :
  extractTokenFromHeader authHeader = Some token ->
  token ≠ "" ->
  verifyToken cfg now (parse token) = Throw e ->
  Authenticate.authenticate parse cast cfg now superAdmins clients authHeader req
  = Authenticate.AuthThrown e
  /\ exists msg,
       e = MkError msg
       /\ msg ∈ ["Token expired"; "Invalid token"; "Token verification failed"]
       /\ ErrorHandler.errorHandler (ErrorHandler.of_Error e)
          = Some {| ErrorHandler.res_status := 500;
                    ErrorHandler.res_error := msg |}.
Proof.
  intros Hext Hne Hverify. split.
  - unfold Authenticate.authenticate.
    by rewrite Hext, (proj2 (String.eqb_neq _ _) Hne), Hverify.
  - pose proof (verifyToken_failures _ _ _ _ Hverify) as Hin.
    rewrite !elem_of_cons, elem_of_nil in Hin.
    destruct Hin as [-> | [-> | [-> | []]]];
      eexists; (split; [reflexivity |]); (split; [set_solver |]); reflexivity.
Qed.

Lemma rejected_token_answered_500_witness :
  exists e,
    Authenticate.authenticate (sample_parse sample_editor_claims) hex_cast
      sample_config 9000000 [] [] (Some "Bearer tok") blank_request
    = Authenticate.AuthThrown e
    /\ ErrorHandler.errorHandler (ErrorHandler.of_Error e)
       = Some {| ErrorHandler.res_status := 500;
                 ErrorHandler.res_error := "Token expired" |}.
Proof.
  exists (MkError "Token expired").
  destruct (rejected_token_answered_500 (sample_parse sample_editor_claims)
              hex_cast sample_config 9000000 [] [] (Some "Bearer tok") blank_request
              "tok" (MkError "Token expired")) as [Hauth _].
  - reflexivity.
  - discriminate.
  - vm_compute. reflexivity.
  - split; [exact Hauth | reflexivity].
Defined.

(** [errorHandler] answers the CastError of a query with 404 'Resource
    not found', whatever the message of the error. *)
Lemma errorHandler_CastError (message : string) :
  ErrorHandler.errorHandler (ErrorHandler.of_CastError message)
  = Some {| ErrorHandler.res_status := 404;
            ErrorHandler.res_error := "Resource not found" |}.
Proof. reflexivity. Qed.

(** [errorHandler] answers a [CustomError] with the error's own status
    code and message, so the errors of the middlewares reach the client
    as 401 and 403; a status code of 0 is answered as 500 and an empty
    message as 'Internal server error'. *)
Lemma errorHandler_custom (e : CustomError) :
  ErrorHandler.errorHandler (ErrorHandler.of_CustomError e)
  = Some {| ErrorHandler.res_status := if statusCode e =? 0 then 500
                                       else statusCode e;
            ErrorHandler.res_error := if String.eqb (message e) ""
                                      then ErrorHandler.SERVER_ERROR
                                      else message e |}.
Proof. reflexivity. Qed.

(** X13.  [authenticateSuperAdmin] never answers 401.  It drops the
    outcome of [authenticate] and then looks at [req.user] only: it
    either goes on with a request whose user has the super_admin role,
    or fails with 403 'Super admin access required'.  In particular a
    request without user for which [authenticate] fails (no token, a
    rejected token, an unknown user) gets the 403. *)
Theorem authenticateSuperAdmin_outcomes (parse : string -> Jwt.token)
    (cast : Mongoose.ObjectIdCast) (cfg : Config) (now : Z)
    (superAdmins : SuperAdminModel.collection)
    (clients : ClientModel.collection) (authHeader : option string)
    (req : Request) :
  let result := Authenticate.authenticateSuperAdmin parse cast cfg now
                  superAdmins clients authHeader req in
  ((exists req' u, result = Next req' /\ user req' = Some u
                   /\ u !! "role" = Some (JStr SUPER_ADMIN))
   \/ result = NextError (forbiddenError "Super admin access required"))
  /\ (user req = None ->
      (forall req', Authenticate.authenticate parse cast cfg now superAdmins
                      clients authHeader req ≠ Authenticate.AuthNext req') ->
      result = NextError (forbiddenError "Super admin access required")).
Proof.
  intros result. subst result. unfold Authenticate.authenticateSuperAdmin. split.
  - destruct (user (Authenticate.after_authenticate _ _ _ _ _ _ _ _)) as [u |] eqn:Hu;
      [| by right].
    case_bool_decide as Hrole; simpl; [| by right].
    left. by eexists _, _.
  - intros Huser Hfail. unfold Authenticate.after_authenticate.
    destruct (Authenticate.authenticate _ _ _ _ _ _ _ _) as [req' | e | e |] eqn:Hauth;
      [by destruct (Hfail req') | | |]; by rewrite Huser.
Qed.

Lemma authenticateSuperAdmin_outcomes_witness :
  Authenticate.authenticateSuperAdmin (sample_parse sample_editor_claims)
    hex_cast sample_config 2000 [] [] None blank_request
  = NextError (forbiddenError "Super admin access required").
Proof.
  apply authenticateSuperAdmin_outcomes; [reflexivity |].
  intros req'. vm_compute. discriminate.
Defined.

(** X14.  After a verified token with an agency role,
    [authenticateAgency] checks the agency only when the token has an
    agencyId claim.  Without one the request goes on and no agency is
    looked up.  With one, an agencyId that mongoose cannot cast to an
    ObjectId makes the query fail, and its CastError is passed on;
    otherwise the request goes on, with the agency attached, exactly
    when the agency exists and is active, and fails with 403 'Agency not
    found or inactive' when it does not. *)
Theorem authenticateAgency_checks (parse : string -> Jwt.token)
    (cast : Mongoose.ObjectIdCast) (cfg : Config)
    (now : Z) (superAdmins : SuperAdminModel.collection)
    (clients : ClientModel.collection) (agencies : collection)
    (authHeader : option string) (req : Request) (decoded : object) :
  presents parse cfg now authHeader decoded ->
  Authenticate.role_in (decoded !! "role") Authenticate.agency_roles = true ->
  let result := Authenticate.authenticateAgency parse cast cfg now superAdmins
                  clients agencies authHeader req in
  let req1 := Authenticate.set_user req decoded in
  (truthy (decoded !! "agencyId") = false -> result = Next req1)
  /\ (truthy (decoded !! "agencyId") = true ->
      result
      = match findById cast agencies (decoded !! "agencyId") with
        | Throw _ => NextCastError
        | Return (Some a) =>
            if isActive a then Next (Authenticate.set_agency req1 a)
            else NextError (forbiddenError "Agency not found or inactive")
        | Return None => NextError (forbiddenError "Agency not found or inactive")
        end).
Proof.
  intros Hpres Hrole result req1. subst result req1.
  unfold Authenticate.authenticateAgency, Authenticate.after_authenticate.
  rewrite (authenticate_agency_next _ _ _ _ _ _ _ req _ Hpres Hrole).
  simpl. rewrite Hrole. simpl. split.
  - by intros ->.
  - intros ->.
    destruct (findById cast agencies _) as [e | [a |]]; [done | | done].
    by destruct (isActive a).
Qed.

Lemma authenticateAgency_checks_witness :
  Authenticate.authenticateAgency (sample_parse sample_editor_claims) hex_cast
    sample_config 2000 [] [] sample_agencies (Some "Bearer tok") blank_request
  = NextError (forbiddenError "Agency not found or inactive").
Proof.
  destruct (authenticateAgency_checks (sample_parse sample_editor_claims) hex_cast
              sample_config 2000 [] [] sample_agencies (Some "Bearer tok")
              blank_request sample_editor_claims) as [_ Hchecked].
  - exists "tok". split; [vm_compute; reflexivity |]. split; [discriminate |].
    vm_compute. reflexivity.
  - vm_compute. reflexivity.
  - rewrite Hchecked; vm_compute; reflexivity.
Defined.

(** X15.  [optionalAuthenticate] never fails: whatever the header, the
    request goes on.  It goes on with a user written to it only when
    the header carries a non-empty token that [verifyToken] accepts;
    otherwise the request is left as it was. *)
Theorem optionalAuthenticate_passes (parse : string -> Jwt.token) (cfg : Config)
    (now : Z) (authHeader : option string) (req : Request) :
  (forall decoded, presents parse cfg now authHeader decoded ->
     Authenticate.optionalAuthenticate parse cfg now authHeader req
     = Next (Authenticate.set_user req decoded))
  /\ ((forall decoded, ~ presents parse cfg now authHeader decoded) ->
      Authenticate.optionalAuthenticate parse cfg now authHeader req = Next req).
Proof.
  unfold Authenticate.optionalAuthenticate. split.
  - intros decoded (token & -> & Hne & ->).
    by rewrite (proj2 (String.eqb_neq _ _) Hne).
  - intros Hnone.
    destruct (extractTokenFromHeader authHeader) as [token |] eqn:Hext; [| done].
    destruct (String.eqb_spec token "") as [| Hne]; [done |].
    destruct (verifyToken cfg now (parse token)) as [e | decoded] eqn:Hv; [done |].
    destruct (Hnone decoded). by exists token.
Qed.

Lemma optionalAuthenticate_passes_witness :
  Authenticate.optionalAuthenticate (sample_parse sample_editor_claims)
    sample_config 2000 (Some "Bearer tok") blank_request
  = Next (Authenticate.set_user blank_request sample_editor_claims).
Proof.
  apply optionalAuthenticate_passes.
  exists "tok". split; [vm_compute; reflexivity |]. split; [discriminate |].
  vm_compute. reflexivity.
Defined.

(** ** rateLimiter.ts: the keys of the agency limiter *)

Lemma has_char_app (c : ascii) (a b : string) :
  has_char c (a +:+ b) = has_char c a || has_char c b.
Proof.
  induction a as [| x a IH]; simpl; [done |].
  by rewrite IH, orb_assoc.
Qed.

(** A string is cut at its last separator in one way only. *)
Lemma app_sep_inj (c : ascii) (a a' b b' : string) :
  has_char c b = false -> has_char c b' = false ->
  a +:+ String c b = a' +:+ String c b' ->
  a = a' /\ b = b'.
Proof.
  intros Hb Hb'. revert a'.
  induction a as [| x a IH]; intros [| x' a']; simpl; intros Heq.
  - by injection Heq as ->.
  - injection Heq as <- ->.
    rewrite has_char_app in Hb. simpl in Hb.
    rewrite Ascii.eqb_refl in Hb. simpl in Hb.
    by rewrite orb_true_r in Hb.
  - injection Heq as -> <-.
    rewrite has_char_app in Hb'. simpl in Hb'.
    rewrite Ascii.eqb_refl in Hb'. simpl in Hb'.
    by rewrite orb_true_r in Hb'.
  - injection Heq as -> Heq. by destruct (IH a' Heq) as [-> ->].
Qed.

(** X16.  The keys of [createAgencyRateLimiter] keep tenants and
    addresses apart: when the IP addresses contain no underscore, two
    requests get the same key only if they come from the same address
    and are for the same tenant (or both for none).  So the hits of one
    tenant are never counted against another. *)
Theorem agency_keys_separate (r r' : RateLimiterKeys.KeyRequest) :
  has_char "_" (RateLimiterKeys.req_ip r) = false ->
  has_char "_" (RateLimiterKeys.req_ip r') = false ->
  RateLimiterKeys.agencyKeyGenerator r = RateLimiterKeys.agencyKeyGenerator r' ->
  RateLimiterKeys.req_ip r = RateLimiterKeys.req_ip r'
  /\ tenant_of r = tenant_of r'.
Proof.
  intros Hip Hip'. unfold RateLimiterKeys.agencyKeyGenerator, tenant_of.
  destruct (RateLimiterKeys.subdomain_of r) as [s |];
    destruct (RateLimiterKeys.subdomain_of r') as [s' |];
    try destruct (String.eqb s ""); try destruct (String.eqb s' "");
    intros Heq; try done.
  all: try (rewrite Heq in Hip; simpl in Hip; discriminate).
  all: try (rewrite <- Heq in Hip'; simpl in Hip'; discriminate).
  injection Heq as Heq.
  by destruct (app_sep_inj "_" s s' _ _ Hip Hip' Heq) as [-> ->].
Qed.

Lemma agency_keys_separate_witness :
  RateLimiterKeys.agencyKeyGenerator (sample_key_request "acme")
  ≠ RateLimiterKeys.agencyKeyGenerator (sample_key_request "globex").
Proof.
  intros Heq.
  destruct (agency_keys_separate (sample_key_request "acme")
              (sample_key_request "globex")) as [_ Htenant];
    [reflexivity | reflexivity | exact Heq |].
  vm_compute in Htenant. discriminate.
Defined.

(** ** Agency.ts and validation.ts: the rules for a subdomain *)

Lemma all_in_class_has_char (c : ascii) (s : string) :
  SubdomainRules.in_class c = false ->
  SubdomainRules.all_in_class s = true ->
  has_char c s = false.
Proof.
  intros Hc. induction s as [| x s IH]; simpl; [done |].
  intros [Hx Hs]%andb_true_iff. rewrite (IH Hs), orb_false_r.
  apply Ascii.eqb_neq. intros ->. congruence.
Qed.

(** A character of the class is no white space and has no other
    lower-case form. *)
Lemma in_class_plain (c : ascii) :
  SubdomainRules.in_class c = true -> is_space c = false /\ lower c = c.
Proof.
  destruct c as [[] [] [] [] [] [] [] []]; vm_compute; intros H;
    first [discriminate H | split; reflexivity].
Qed.

Lemma trimEnd_in_class (s : string) :
  SubdomainRules.all_in_class s = true -> trimEnd s = s.
Proof.
  induction s as [| c s IH]; simpl; [done |].
  intros [Hc Hs]%andb_true_iff. rewrite (IH Hs).
  destruct s; [| done].
  by rewrite (proj1 (in_class_plain c Hc)).
Qed.

Lemma toLowerCase_in_class (s : string) :
  SubdomainRules.all_in_class s = true -> toLowerCase s = s.
Proof.
  induction s as [| c s IH]; simpl; [done |].
  intros [Hc Hs]%andb_true_iff.
  by rewrite (IH Hs), (proj2 (in_class_plain c Hc)).
Qed.

(** The setters of the subdomain path leave a string of the class as it
    is. *)
Lemma subdomain_setters_in_class (s : string) :
  SubdomainRules.all_in_class s = true -> subdomain_setters s = s.
Proof.
  intros Hs. unfold subdomain_setters, trim.
  assert (Hstart : trimStart s = s).
  { destruct s as [| c s]; simpl; [done |].
    simpl in Hs. apply andb_true_iff in Hs as [Hc _].
    by rewrite (proj1 (in_class_plain c Hc)). }
  by rewrite Hstart, trimEnd_in_class, toLowerCase_in_class.
Qed.

(** The two orders in which the setters can run give the same value. *)
Lemma subdomain_setters_commute (s : string) :
  toLowerCase (trim s) = trim (toLowerCase s).
Proof.
  assert (Hspace : forall c, is_space (lower c) = is_space c).
  { intros c. by destruct c as [[] [] [] [] [] [] [] []]. }
  assert (Hstart : forall t, toLowerCase (trimStart t) = trimStart (toLowerCase t)).
  { induction t as [| c t IH]; simpl; [done |].
    rewrite Hspace. by destruct (is_space c). }
  assert (Hend : forall t, toLowerCase (trimEnd t) = trimEnd (toLowerCase t)).
  { induction t as [| c t IH]; simpl; [done |].
    rewrite <- IH, Hspace.
    destruct (trimEnd t); simpl; [by destruct (is_space c) | done]. }
  unfold trim. by rewrite Hend, Hstart.
Qed.

(** X17.  The mongoose schema of an agency runs the setters of the
    subdomain path (trim, lower case) before it validates, and the zod
    schema for creating an agency does not: the mongoose schema accepts
    a value exactly when the zod schema accepts what the setters make of
    it, which is what gets stored.  Every subdomain the zod schema
    accepts is accepted by the mongoose schema too and stored as it is.
    A stored subdomain is 3 to 20 characters long, neither starts nor
    ends with a hyphen and consists of characters of the class
    [a-z0-9-] only: it has no underscore, dot, space or upper-case
    letter in it. *)
Theorem subdomain_rules_agree (raw : string) :
  let stored := subdomain_setters raw in
  SubdomainRules.schema_accepts raw = SubdomainRules.zod_accepts stored
  /\ (SubdomainRules.zod_accepts raw = true ->
      stored = raw /\ SubdomainRules.schema_accepts raw = true)
  /\ (SubdomainRules.schema_accepts raw = true ->
      (3 <= String.length stored <= 20)%nat
      /\ SubdomainRules.startsWith_hyphen stored = false
      /\ SubdomainRules.endsWith_hyphen stored = false
      /\ forall c, SubdomainRules.in_class c = false -> has_char c stored = false).
Proof.
  intros stored.
  assert (Hagree : SubdomainRules.schema_accepts raw
                   = SubdomainRules.zod_accepts stored).
  { unfold SubdomainRules.schema_accepts, SubdomainRules.zod_accepts,
      SubdomainRules.validator, SubdomainRules.regex_test.
    fold stored. destruct stored as [| c s]; [reflexivity |].
    change (String.eqb (String c s) "") with false. simpl negb.
    destruct (3 <=? String.length (String c s))%nat,
      (String.length (String c s) <=? 20)%nat,
      (SubdomainRules.all_in_class (String c s)),
      (SubdomainRules.startsWith_hyphen (String c s)),
      (SubdomainRules.endsWith_hyphen (String c s)); reflexivity. }
  split; [exact Hagree |]. split.
  - intros Hzod.
    assert (Hfixed : stored = raw).
    { apply subdomain_setters_in_class.
      unfold SubdomainRules.zod_accepts, SubdomainRules.regex_test in Hzod.
      rewrite !andb_true_iff in Hzod. tauto. }
    split; [exact Hfixed |]. by rewrite Hagree, Hfixed.
  - rewrite Hagree.
    unfold SubdomainRules.zod_accepts, SubdomainRules.regex_test.
    rewrite !andb_true_iff, !negb_true_iff.
    intros (((Hmin & Hmax) & (_ & Hclass)) & (Hstart & Hend)).
    apply Nat.leb_le in Hmin, Hmax.
    repeat split; try done.
    intros c Hc. by apply all_in_class_has_char.
Qed.

Lemma subdomain_rules_agree_witness :
  SubdomainRules.schema_accepts " Acme-Study " = true
  /\ SubdomainRules.zod_accepts " Acme-Study " = false
  /\ subdomain_setters " Acme-Study " = "acme-study"
  /\ has_char "_" (subdomain_setters " Acme-Study ") = false
  /\ SubdomainRules.schema_accepts "acme-study" = true.
Proof.
  destruct (subdomain_rules_agree " Acme-Study ") as (Hagree & _ & Hstored).
  destruct (subdomain_rules_agree "acme-study") as (_ & Hzod & _).
  split; [rewrite Hagree; vm_compute; reflexivity |].
  split; [vm_compute; reflexivity |].
  split; [vm_compute; reflexivity |].
  split.
  - destruct Hstored as (_ & _ & _ & Hclass);
      [rewrite Hagree; vm_compute; reflexivity |].
    apply Hclass. vm_compute. reflexivity.
  - apply Hzod. vm_compute. reflexivity.
Defined.

(** ** Agency.ts: finding a tenant *)

(** X18.  The query of [findBySubdomain] is cast by the schema: the
    subdomain asked for is trimmed and put in lower case.
    [findBySubdomain] finds an agency exactly when the collection has an
    active agency stored under that form of the subdomain; what it finds
    is such an agency, and it is the agency [validateAgencySubdomain]
    attaches to the request. *)
Theorem findBySubdomain_active (agencies : collection) (s : string) :
  let stored := subdomain_setters s in
  ((exists a, a ∈ agencies /\ subdomain a = stored /\ isActive a = true)
   <-> exists a, findBySubdomain agencies s = Some a)
  /\ forall a, findBySubdomain agencies s = Some a ->
       a ∈ agencies /\ subdomain a = stored /\ isActive a = true
       /\ forall req, params req !! "subdomain" = Some s -> s ≠ "" ->
            validateAgencySubdomain agencies req
            = Next {| user := user req; agency := Some a;
                      params := params req; route_path := route_path req |}.
Proof.
  intros stored. subst stored. split; [split |].
  - intros (a & Hin & Hsub & Hact).
    destruct (findBySubdomain agencies s) as [b |] eqn:Hfind; [by exists b |].
    unfold findBySubdomain, findOne in Hfind.
    apply list_elem_of_In in Hin. apply (find_none _ _ Hfind a) in Hin as Hfalse.
    unfold isActive in Hact.
    by rewrite Hsub, String.eqb_refl, Hact in Hfalse.
  - intros (a & Hfind). exists a.
    destruct (findBySubdomain_Some _ _ _ Hfind) as (Hin & Hsub & Hact).
    repeat split; try done. unfold isActive. by apply bool_decide_eq_true.
  - intros a Hfind.
    destruct (findBySubdomain_Some _ _ _ Hfind) as (Hin & Hsub & Hact).
    repeat split; try done; [unfold isActive; by apply bool_decide_eq_true |].
    intros req Hparam Hne. unfold validateAgencySubdomain.
    by rewrite Hparam, (proj2 (String.eqb_neq _ _) Hne), Hfind.
Qed.

Lemma findBySubdomain_active_witness :
  exists a, findBySubdomain sample_agencies " GLOBEX" = Some a
            /\ subdomain a = "globex".
Proof.
  destruct (findBySubdomain_active sample_agencies " GLOBEX") as [[Hfinds _] Hfound].
  destruct Hfinds as [a Ha].
  - eexists. split; [| split].
    + right. left.
    + vm_compute. reflexivity.
    + reflexivity.
  - exists a. split; [exact Ha |].
    destruct (Hfound a Ha) as (_ & Hsub & _). rewrite Hsub.
    vm_compute. reflexivity.
Defined.

(** ** notificationSlice.ts *)

Section Notifications.
Import NotificationSlice.

Lemma unread_in_cons (n : Notification) (ns : list Notification) :
  unread_in (n :: ns) = (if read n then 0 else 1) + unread_in ns.
Proof. unfold unread_in. simpl. destruct (read n); simpl; lia. Qed.

Lemma unread_in_app (ns ms : list Notification) :
  unread_in (ns ++ ms) = unread_in ns + unread_in ms.
Proof.
  induction ns as [| n ns IH]; [reflexivity |].
  change ((n :: ns) ++ ms)%list with (n :: (ns ++ ms))%list.
  rewrite !unread_in_cons, IH. lia.
Qed.

Lemma unread_in_nonneg (ns : list Notification) : 0 <= unread_in ns.
Proof. unfold unread_in. lia. Qed.

(** A filter and its complement split the unread notifications. *)
Lemma unread_in_partition (p : Notification -> bool) (ns : list Notification) :
  unread_in ns
  = unread_in (List.filter p ns) + unread_in (List.filter (fun n => negb (p n)) ns).
Proof.
  induction ns as [| n ns IH]; [reflexivity |].
  simpl List.filter. destruct (p n); simpl negb; cbv iota;
    rewrite !unread_in_cons, IH; lia.
Qed.

Lemma unread_in_mark_first (target : string) (ns : list Notification)
    (n : Notification) :
  List.find (fun n => String.eqb (id n) target) ns = Some n ->
  read n = false ->
  unread_in (mark_first target ns) = unread_in ns - 1.
Proof.
  induction ns as [| m ns IH]; simpl; [discriminate |].
  destruct (String.eqb (id m) target).
  - intros [= ->] Hread. rewrite !unread_in_cons, Hread. simpl. lia.
  - intros Hfind Hread. rewrite !unread_in_cons, (IH Hfind Hread). lia.
Qed.

Lemma unread_in_remove_first (target : string) (ns : list Notification)
    (n : Notification) :
  List.find (fun n => String.eqb (id n) target) ns = Some n ->
  unread_in (remove_first target ns)
  = unread_in ns - (if read n then 0 else 1).
Proof.
  induction ns as [| m ns IH]; simpl; [discriminate |].
  destruct (String.eqb (id m) target).
  - intros [= ->]. rewrite unread_in_cons. lia.
  - intros Hfind. rewrite !unread_in_cons, (IH Hfind). lia.
Qed.

Lemma unread_in_all_read (ns : list Notification) :
  unread_in (set_read <$> ns) = 0.
Proof.
  induction ns as [| n ns IH]; [reflexivity |].
  rewrite fmap_cons, unread_in_cons, IH. reflexivity.
Qed.

Lemma unread_in_marked (ids : list string) (ns : list Notification) :
  unread_in ((fun n => if to_mark ids n then set_read n else n) <$> ns)
  = unread_in ns - Z.of_nat (length (List.filter (to_mark ids) ns)).
Proof.
  induction ns as [| n ns IH]; [reflexivity |].
  rewrite fmap_cons, !unread_in_cons, IH. simpl List.filter.
  unfold to_mark at 1 3. destruct (bool_decide (id n ∈ ids)), (read n) eqn:Hread;
    simpl; rewrite ?Hread; simpl length; lia.
Qed.

Lemma limit_total_counts (state : NotificationState) :
  counts_unread state -> counts_unread (limit_total state).
Proof.
  unfold counts_unread, limit_total. intros Hcount.
  destruct (_ >? _); [| done]. unfold splice. simpl.
  set (k := Z.to_nat _).
  pose proof (unread_in_app (take k (notifications state))
                (drop k (notifications state))) as Hsplit.
  rewrite take_drop in Hsplit.
  pose proof (unread_in_nonneg (take k (notifications state))). lia.
Qed.

Lemma limit_total_timed (state : NotificationState) :
  all_timed (notifications state) -> all_timed (notifications (limit_total state)).
Proof.
  unfold all_timed, limit_total. intros Htimed.
  destruct (_ >? _); [| done]. unfold splice. simpl.
  by apply Forall_take.
Qed.

Lemma mark_first_timed (target : string) (ns : list Notification) :
  all_timed ns -> all_timed (mark_first target ns).
Proof.
  unfold all_timed. induction 1 as [| n ns Hn Hns IH]; simpl; [constructor |].
  destruct (String.eqb (id n) target); by constructor.
Qed.

Lemma remove_first_timed (target : string) (ns : list Notification) :
  all_timed ns -> all_timed (remove_first target ns).
Proof.
  unfold all_timed. induction 1 as [| n ns Hn Hns IH]; simpl; [constructor |].
  destruct (String.eqb (id n) target); [done | by constructor].
Qed.

Lemma filter_timed (p : Notification -> bool) (ns : list Notification) :
  all_timed ns -> all_timed (List.filter p ns).
Proof.
  unfold all_timed. induction 1 as [| n ns Hn Hns IH]; simpl; [constructor |].
  destruct (p n); [by constructor | done].
Qed.

(** The timestamps stay numbers under actions whose numbers are. *)
Lemma reducer_timed (state : NotificationState) (a : action) :
  all_timed (notifications state) -> well_timed a ->
  all_timed (notifications (reducer state a)).
Proof.
  intros Htimed Ha.
  destruct a as [n | i | | i | | now age | patch | b | e | ns | ids];
    cbn [reducer]; try exact Htimed.
  - apply limit_total_timed. simpl. simpl in Ha. unfold all_timed in *.
    apply Forall_cons. split; [by apply Forall_inv in Ha | done].
  - unfold markAsRead. destruct (List.find _ _) as [n |]; [| done].
    destruct (read n); [done |]. simpl. by apply mark_first_timed.
  - simpl. unfold all_timed in *. by apply Forall_fmap.
  - unfold removeNotification. destruct (List.find _ _) as [n |]; [| done].
    simpl. by apply remove_first_timed.
  - constructor.
  - simpl. by apply filter_timed.
  - apply limit_total_timed. simpl. simpl in Ha. unfold all_timed in *.
    by apply Forall_app.
  - simpl. unfold all_timed in *. apply Forall_fmap.
    eapply Forall_impl; [exact Htimed |].
    intros n Hn. simpl. by destruct (to_mark ids n).
Qed.

(** With a NaN in the comparison both filters of
    [clearOldNotifications] are false: the notification leaves the list
    and is not counted among the old ones. *)
Lemma clearOldNotifications_NaN (now : Z) (state : NotificationState) :
  clearOldNotifications now state NaN
  = update state (List.filter is_persistent (notifications state))
      (Z.max 0 (unreadCount state)).
Proof.
  unfold clearOldNotifications. simpl.
  assert (Hold : List.filter (fun n => lt (timestamp n) NaN && negb (is_persistent n))
                   (notifications state) = []).
  { induction (notifications state) as [| n ns IH]; simpl; [done |].
    by destruct (timestamp n). }
  rewrite Hold.
  rewrite (List.filter_ext (fun n => ge (timestamp n) NaN || is_persistent n)
             is_persistent) by (intros n; by destruct (timestamp n)).
  unfold unread_in. simpl. by rewrite Z.sub_0_r.
Qed.

Lemma reducer_counts (state : NotificationState) (a : action) :
  all_timed (notifications state) -> well_timed a ->
  counts_unread state -> counts_unread (reducer state a).
Proof.
  intros Htimed Ha Hcount.
  pose proof (unread_in_nonneg (notifications state)) as Hpos.
  destruct a as [n | i | | i | | now age | patch | b | e | ns | ids];
    cbn [reducer]; try exact Hcount.
  - apply limit_total_counts. unfold counts_unread in *. simpl.
    rewrite unread_in_cons, Hcount. destruct (read n); simpl; lia.
  - unfold markAsRead.
    destruct (List.find _ _) as [n |] eqn:Hfind; [| exact Hcount].
    destruct (read n) eqn:Hread; [exact Hcount |].
    unfold counts_unread in *. simpl.
    rewrite (unread_in_mark_first _ _ _ Hfind Hread).
    pose proof (unread_in_nonneg (mark_first i (notifications state))) as Hpos'.
    rewrite (unread_in_mark_first _ _ _ Hfind Hread) in Hpos'. lia.
  - unfold counts_unread. simpl. by rewrite unread_in_all_read.
  - unfold removeNotification.
    destruct (List.find _ _) as [n |] eqn:Hfind; [| exact Hcount].
    unfold counts_unread in *. simpl.
    pose proof (unread_in_nonneg (remove_first i (notifications state))) as Hpos'.
    rewrite (unread_in_remove_first _ _ _ Hfind) in *.
    destruct (read n); simpl in *; lia.
  - reflexivity.
  - simpl in Ha. destruct age as [age |]; [| done].
    unfold counts_unread in *. simpl.
    set (old := fun n => lt (timestamp n) (Num (now - age)) && negb (is_persistent n)).
    rewrite (List.filter_ext_in
               (fun n => ge (timestamp n) (Num (now - age)) || is_persistent n)
               (fun n => negb (old n))).
    + pose proof (unread_in_partition old (notifications state)) as Hsplit.
      pose proof (unread_in_nonneg
                    (List.filter (fun n => negb (old n)) (notifications state))).
      fold old. lia.
    + intros n Hin. unfold old.
      apply list_elem_of_In in Hin.
      pose proof (proj1 (Forall_forall _ _) Htimed n Hin) as Hn. simpl in Hn.
      destruct (timestamp n) as [t |]; [| done]. simpl.
      destruct (Z.ltb_spec t (now - age)), (Z.geb_spec t (now - age)),
        (is_persistent n); simpl; (reflexivity || lia).
  - apply limit_total_counts. unfold counts_unread in *. simpl.
    rewrite unread_in_app, Hcount. lia.
  - unfold counts_unread in *. simpl. rewrite unread_in_marked.
    pose proof (unread_in_nonneg
      ((fun n => if to_mark ids n then set_read n else n) <$> notifications state))
      as Hpos'.
    rewrite unread_in_marked in Hpos'. lia.
Qed.

Lemma run_counts (actions : list action) (state : NotificationState) :
  Forall well_timed actions ->
  all_timed (notifications state) ->
  counts_unread state -> counts_unread (fold_left reducer actions state).
Proof.
  intros Hactions. revert state.
  induction Hactions as [| a rest Ha Hrest IH]; intros state Htimed Hcount; [done |].
  simpl. apply IH; [by apply reducer_timed | by apply reducer_counts].
Qed.

(** With an age that is NaN the counter drifts: the notification is
    removed, and the counter still counts it. *)
Lemma unread_count_drifts_on_NaN :
  let state :=
    fold_left reducer
      [AddNotification (sample_notification "n1" 1000);
       ClearOldNotifications 5000 NaN]
      (initialState true true true) in
  notifications state = [] /\ unreadCount state = 1.
Proof. split; reflexivity. Qed.

End Notifications.

(** X19.  The unread counter of the notification slice does not drift as
    long as the numbers of the actions are numbers: after any sequence
    of actions from the initial state in which no timestamp of an added
    notification and no age given to clearOldNotifications is NaN,
    [unreadCount] is the number of notifications
    [selectUnreadNotifications] returns (so the clamping with
    [Math.max(0, ...)] never has to cut). *)
Theorem unread_count_exact (sound desktop mail : bool)
    (actions : list NotificationSlice.action) :
  Forall well_timed actions ->
  let state := fold_left NotificationSlice.reducer actions
                 (NotificationSlice.initialState sound desktop mail) in
  NotificationSlice.unreadCount state
  = Z.of_nat (length (NotificationSlice.selectUnreadNotifications state)).
Proof.
  intros Hactions state.
  apply (run_counts actions); [done | constructor | reflexivity].
Qed.

Lemma unread_count_exact_witness :
  let state :=
    fold_left NotificationSlice.reducer
      [NotificationSlice.AddNotification (sample_notification "n1" 1000);
       NotificationSlice.AddNotification (sample_notification "n2" 4000);
       NotificationSlice.ClearOldNotifications 5000 (NotificationSlice.Num 2000)]
      (NotificationSlice.initialState true true true) in
  NotificationSlice.unreadCount state
  = Z.of_nat (length (NotificationSlice.selectUnreadNotifications state)).
Proof.
  apply (unread_count_exact true true true).
  repeat constructor; discriminate.
Defined.

(** X20.  Both adding reducers cut the list to [maxNotifications]: with
    a limit that is not negative, the list is never longer than the
    limit afterwards, whatever its length was before; and with a limit
    of at least 1, a notification added alone is the first of the
    list. *)
Theorem notifications_bounded (state : NotificationSlice.NotificationState)
    (n : NotificationSlice.Notification)
    (ns : list NotificationSlice.Notification) :
  0 <= NotificationSlice.maxNotifications (NotificationSlice.settings state) ->
  Z.of_nat (length (NotificationSlice.notifications
                      (NotificationSlice.addNotification state n)))
  <= NotificationSlice.maxNotifications (NotificationSlice.settings state)
  /\ Z.of_nat (length (NotificationSlice.notifications
                         (NotificationSlice.addNotifications state ns)))
     <= NotificationSlice.maxNotifications (NotificationSlice.settings state)
  /\ (1 <= NotificationSlice.maxNotifications (NotificationSlice.settings state) ->
      head (NotificationSlice.notifications
              (NotificationSlice.addNotification state n)) = Some n).
Proof.
  intros Hmax.
  assert (Hlimit : forall st,
    0 <= NotificationSlice.maxNotifications (NotificationSlice.settings st) ->
    Z.of_nat (length (NotificationSlice.notifications
                        (NotificationSlice.limit_total st)))
    <= NotificationSlice.maxNotifications (NotificationSlice.settings st)).
  { intros st Hst. unfold NotificationSlice.limit_total.
    destruct (Z.gtb_spec (Z.of_nat (length (NotificationSlice.notifications st)))
                (NotificationSlice.maxNotifications (NotificationSlice.settings st)));
      [| lia].
    unfold NotificationSlice.splice. simpl.
    replace (_ <? 0) with false by lia.
    rewrite length_take. lia. }
  split; [| split].
  - apply (Hlimit (NotificationSlice.update state _ _)). exact Hmax.
  - apply (Hlimit (NotificationSlice.update state _ _)). exact Hmax.
  - intros Hone. unfold NotificationSlice.addNotification,
      NotificationSlice.limit_total. simpl.
    destruct (_ >? _); [| reflexivity].
    unfold NotificationSlice.splice. simpl.
    replace (_ <? 0) with false by lia.
    destruct (Z.to_nat _) as [| k] eqn:Hk; [lia | reflexivity].
Qed.

Lemma notifications_bounded_witness :
  head (NotificationSlice.notifications
          (NotificationSlice.addNotification
             (NotificationSlice.initialState true true true)
             (sample_notification "n1" 1000)))
  = Some (sample_notification "n1" 1000).
Proof.
  apply (notifications_bounded (NotificationSlice.initialState true true true)
           (sample_notification "n1" 1000) []); simpl; lia.
Defined.

(** ** themeSlice.ts *)

Lemma theme_reducer_resolved (sw : ThemeSlice.ThemeState * option ThemeSlice.Window)
    (a : ThemeSlice.action) :
  resolved_right (fst sw) -> resolved_right (fst (ThemeSlice.reducer sw a)).
Proof. by destruct a. Qed.

Lemma theme_run_resolved (actions : list ThemeSlice.action)
    (sw : ThemeSlice.ThemeState * option ThemeSlice.Window) :
  resolved_right (fst sw) ->
  resolved_right (fst (fold_left ThemeSlice.reducer actions sw)).
Proof.
  revert sw. induction actions as [| a rest IH]; intros sw Hsw; [done |].
  simpl. by apply IH, theme_reducer_resolved.
Qed.

(** X21.  In every state the theme slice reaches from its initial state,
    the resolved theme is the chosen theme, or the system theme when
    the choice is 'system'; dark mode is selected exactly then; and
    toggling three times (light, dark, system, light) leads back to
    the same state. *)
Theorem theme_resolved (window : option ThemeSlice.Window)
    (actions : list ThemeSlice.action) :
  let sw := fold_left ThemeSlice.reducer actions
              (ThemeSlice.initialState window, window) in
  ThemeSlice.resolvedTheme (fst sw)
  = ThemeSlice.resolveTheme (ThemeSlice.theme (fst sw))
                            (ThemeSlice.systemTheme (fst sw))
  /\ (ThemeSlice.selectIsDarkMode (fst sw) = true
      <-> ThemeSlice.theme (fst sw) = ThemeSlice.Fixed ThemeSlice.Dark
          \/ (ThemeSlice.theme (fst sw) = ThemeSlice.System
              /\ ThemeSlice.systemTheme (fst sw) = ThemeSlice.Dark))
  /\ fst (fold_left ThemeSlice.reducer
            [ThemeSlice.ToggleTheme; ThemeSlice.ToggleTheme; ThemeSlice.ToggleTheme] sw)
     = fst sw.
Proof.
  intros sw.
  assert (Hres : resolved_right (fst sw)) by (by apply theme_run_resolved).
  unfold resolved_right in Hres. split; [exact Hres |]. split.
  - unfold ThemeSlice.selectIsDarkMode. rewrite Hres.
    destruct (ThemeSlice.theme (fst sw)) as [[|] |],
      (ThemeSlice.systemTheme (fst sw)); simpl;
      (split; [intros H; try discriminate; auto
              | intros [H | [H1 H2]]; try discriminate; auto]).
  - destruct sw as [[t s r] w]. simpl in *. subst r.
    by destruct t as [[|] |].
Qed.

(** X22.  The theme choice survives a reload.  In a browser, after
    [setTheme] or [toggleTheme] the theme read back from localStorage by
    [getInitialTheme] is the theme of the new state, and the document
    root carries the class of the resolved theme and not the other
    one. *)
Theorem theme_persisted (state : ThemeSlice.ThemeState) (w : ThemeSlice.Window) :
  (forall t,
     exists w',
       snd (ThemeSlice.setTheme state (Some w) t) = Some w'
       /\ ThemeSlice.theme (fst (ThemeSlice.setTheme state (Some w) t)) = t
       /\ ThemeSlice.getInitialTheme (Some w') = t
       /\ root_shows w' (ThemeSlice.resolvedTheme
                           (fst (ThemeSlice.setTheme state (Some w) t))))
  /\ exists w',
       snd (ThemeSlice.toggleTheme state (Some w)) = Some w'
       /\ ThemeSlice.getInitialTheme (Some w')
          = ThemeSlice.theme (fst (ThemeSlice.toggleTheme state (Some w)))
       /\ root_shows w' (ThemeSlice.resolvedTheme
                           (fst (ThemeSlice.toggleTheme state (Some w)))).
Proof.
  split.
  - intros t. eexists. split; [reflexivity |]. split; [reflexivity |]. simpl.
    split; [rewrite lookup_insert_eq; by destruct t as [[|] |] |].
    unfold root_shows.
    destruct (ThemeSlice.resolveTheme t (ThemeSlice.systemTheme state));
      simpl; split; split; set_solver.
  - eexists. split; [reflexivity |]. simpl.
    split; [rewrite lookup_insert_eq;
            by destruct (ThemeSlice.theme state) as [[|] |] |].
    unfold root_shows.
    destruct (ThemeSlice.resolveTheme _ (ThemeSlice.systemTheme state));
      simpl; split; split; set_solver.
Qed.

(** ** authSlice.ts *)

Lemma auth_reducer_in_step (sl : AuthSlice.AuthState * gmap string string)
    (a : AuthSlice.action) :
  auth_in_step sl -> auth_in_step (AuthSlice.reducer sl a).
Proof.
  destruct sl as [st ls]. unfold auth_in_step. simpl.
  intros (Hacc & Href & Hauth).
  destruct a as [| p | e | | acc ref | p | | b]; simpl.
  - done.
  - rewrite lookup_insert_ne, !lookup_insert_eq by done.
    repeat split; first [done | by eexists].
  - rewrite lookup_delete_ne, !lookup_delete_eq by done.
    repeat split; first [done | by intros [? ?]].
  - rewrite lookup_delete_ne, !lookup_delete_eq by done.
    repeat split; first [done | by intros [? ?]].
  - rewrite lookup_insert_ne, !lookup_insert_eq by done. done.
  - unfold AuthSlice.updateUser. destruct (AuthSlice.user st) eqn:Hu; simpl.
    + split; [done |]. split; [done |]. split; [by eexists |].
      intros _. apply Hauth. by eexists.
    + by rewrite Hu.
  - done.
  - done.
Qed.

(** X23.  The auth slice stays in step with localStorage: after any
    sequence of actions from the initial state, the access and refresh
    tokens in the state are the ones stored under accessToken and
    refreshToken, and [isAuthenticated] holds exactly when there is a
    user.  A logout leaves no user and no token in either place. *)
Theorem auth_slice_in_step (localStorage : gmap string string)
    (actions : list AuthSlice.action) :
  let sl := fold_left AuthSlice.reducer actions
              (AuthSlice.initialState localStorage, localStorage) in
  AuthSlice.accessToken (fst sl) = snd sl !! "accessToken"
  /\ AuthSlice.refreshToken (fst sl) = snd sl !! "refreshToken"
  /\ (AuthSlice.isAuthenticated (fst sl) = true <-> is_Some (AuthSlice.user (fst sl)))
  /\ (let out := AuthSlice.reducer sl AuthSlice.Logout in
      AuthSlice.user (fst out) = None
      /\ AuthSlice.isAuthenticated (fst out) = false
      /\ AuthSlice.accessToken (fst out) = None
      /\ snd out !! "accessToken" = None
      /\ snd out !! "refreshToken" = None).
Proof.
  intros sl.
  assert (Hrun : forall acts sl0, auth_in_step sl0 ->
            auth_in_step (fold_left AuthSlice.reducer acts sl0)).
  { induction acts as [| a rest IH]; intros sl0 H0; [done |].
    simpl. by apply IH, auth_reducer_in_step. }
  assert (Hstep : auth_in_step sl).
  { apply Hrun. unfold auth_in_step. simpl.
    split; [done |]. split; [done |]. split; [done | by intros [? ?]]. }
  destruct Hstep as (Hacc & Href & Hauth).
  repeat split; try done; try apply Hauth; simpl.
  - by rewrite lookup_delete_ne, lookup_delete_eq.
  - by rewrite lookup_delete_eq.
Qed.
